(** * Calculator Pro and Demo tool sets: a shallow embedding

    The two Python modules [mcp-test-server/main.py] (the calculator) and
    [mcp-test-server/main-enhanced.py] (the demo tools) are embedded as Rocq
    functions over

    - [Z] for Python's unbounded [int];
    - [spec_float] at precision 53 and maximal exponent 1024 for Python's
      [float] (IEEE 754 binary64, as specified by the Standard Library);
    - [string] for [str];
    - a small state-and-exception monad [py] for what a tool call can do
      besides returning: print a line, draw a random number, read the clock,
      raise an exception, or loop for longer than it is given. *)

From Stdlib Require Import ZArith Lia Bool List String Ascii.
From Stdlib Require Import Floats.SpecFloat.
Import ListNotations.

Local Open Scope string_scope.
Local Open Scope Z_scope.

(** ** Python values and the effects of a tool call *)

Module Py.

(** IEEE 754 binary64. *)
Definition prec : Z := 53.
Definition emax : Z := 1024.

Definition float : Type := spec_float.

(** The values the tools take and return: [Union[int, float, str]]. *)
Inductive val :=
| VInt (z : Z)
| VFloat (x : float)
| VStr (s : string).

(** The exceptions that the operations of the two modules can meet. *)
Inductive exn := ValueError | OverflowError | ZeroDivisionError.

Definition exn_eqb (a b : exn) : bool :=
  match a, b with
  | ValueError, ValueError
  | OverflowError, OverflowError
  | ZeroDivisionError, ZeroDivisionError => true
  | _, _ => false
  end.

(** What a call ends with: a returned value or a raised exception; or it
    has not ended when the loop iterations that the world grants are used
    up. *)
Inductive outcome (A : Type) :=
| Return (a : A)
| Raise (e : exn)
| Diverge.
Arguments Return {A} a.
Arguments Raise {A} e.
Arguments Diverge {A}.

(** One piece of an f-string: literal text or an interpolated value. *)
Inductive frag :=
| Lit (s : string)
| Arg (v : val).

(** [datetime.now()]: the fields that [strftime] reads. *)
Record datetime := {
  year : N; month : N; day : N; hour : N; minute : N; second : N
}.

(** The world around a call: the lines printed so far (newest first), the
    random generator (the 32-bit words that the Mersenne Twister will give,
    whatever its state, and how many were taken), the wall clock, and the
    number of iterations a loop is given before the run is cut off. *)
Record world := {
  stdout : list (list frag);
  rng_draws : nat -> Z;
  rng_pos : nat;
  now : datetime;
  fuel : nat
}.

(** A Python computation: it reads and changes the world and either returns
    or raises. *)
Definition py (A : Type) : Type := world -> outcome A * world.

Definition ret {A} (a : A) : py A := fun w => (Return a, w).

Definition raise {A} (e : exn) : py A := fun w => (Raise e, w).

Definition diverge {A} : py A := fun w => (Diverge, w).

Definition bind {A B} (m : py A) (k : A -> py B) : py B :=
  fun w =>
    match m w with
    | (Return a, w') => k a w'
    | (Raise e, w') => (Raise e, w')
    | (Diverge, w') => (Diverge, w')
    end.

(** [try: body except E1: h1 except E2: h2 ...]: the first clause whose
    exception matches handles it; an exception that matches none goes on. *)
Fixpoint handler {A} (clauses : list (exn * py A)) (e : exn) : py A :=
  match clauses with
  | [] => raise e
  | (e', h) :: rest => if exn_eqb e e' then h else handler rest e
  end.

Definition try_except {A} (body : py A) (clauses : list (exn * py A)) : py A :=
  fun w =>
    match body w with
    | (Return a, w') => (Return a, w')
    | (Raise e, w') => handler clauses e w'
    | (Diverge, w') => (Diverge, w')
    end.

(** [sys.get_int_max_str_digits()], CPython's default: an [int] of more
    decimal digits is not converted to [str]. *)
Definition int_max_str_digits : Z := 4300.

Definition str_digits_bound : Z := 10 ^ int_max_str_digits.

(** [str(z)] succeeds: [z] has at most [int_max_str_digits] digits. *)
Definition printable (z : Z) : bool := Z.abs z <? str_digits_bound.

(** A replacement field [{v}] of an f-string: the conversion of an [int]
    that is too long raises [ValueError]; a [float] or a [str] always
    converts. *)
Definition format_field (f : frag) : py frag :=
  match f with
  | Arg (VInt z) => if printable z then ret f else raise ValueError
  | _ => ret f
  end.

(** [f"..."]: the fields are converted from left to right. *)
Fixpoint fstring (pieces : list frag) : py (list frag) :=
  match pieces with
  | [] => ret []
  | f :: rest =>
      bind (format_field f) (fun f' =>
      bind (fstring rest) (fun rest' => ret (f' :: rest')))
  end.

(** Every field of the f-string converts. *)
Definition formattable (pieces : list frag) : bool :=
  forallb (fun f => match f with Arg (VInt z) => printable z | _ => true end)
    pieces.

(** [print(line)] for a string already built. *)
Definition print (line : list frag) : py unit :=
  fun w =>
    (Return tt,
     {| stdout := line :: stdout w; rng_draws := rng_draws w;
        rng_pos := rng_pos w; now := now w; fuel := fuel w |}).

(** What the caller of a tool sees of a call made in world [w]. *)
Definition result {A} (m : py A) (w : world) : outcome A := fst (m w).

(** The world that a call made in world [w] leaves behind. *)
Definition world_after {A} (m : py A) (w : world) : world := snd (m w).

(** The world [w] with one more line printed. *)
Definition printed (line : list frag) (w : world) : world :=
  {| stdout := line :: stdout w; rng_draws := rng_draws w;
     rng_pos := rng_pos w; now := now w; fuel := fuel w |}.

(** A call returns: it ends with a value and not with an exception. *)
Definition returns {A} (m : py A) (w : world) : Prop :=
  exists a, result m w = Return a.

End Py.
Import Py.

Declare Scope py_scope.
Delimit Scope py_scope with py.
Notation "x <- m ;; k" := (bind m (fun x => k))
  (at level 100, m at next level, right associativity) : py_scope.
Notation "m ;; k" := (bind m (fun _ => k))
  (at level 100, right associativity) : py_scope.
Notation "'try' body 'except' clauses" := (try_except body clauses)
  (at level 100, body at next level) : py_scope.
Local Open Scope py_scope.

(** ** Python's [float] and the [math] module *)

Module Float.

Definition zero : float := S754_zero false.
Definition inf : float := S754_infinity false.
Definition neg_inf : float := S754_infinity true.
Definition nan : float := S754_nan.

(** [float(z)] for an [int] that fits: the nearest binary64, ties to even. *)
Definition of_int (z : Z) : float := binary_normalize prec emax z 0 false.

Definition isnan (x : float) : bool :=
  match x with S754_nan => true | _ => false end.

Definition isinf (x : float) : bool :=
  match x with S754_infinity _ => true | _ => false end.

Definition isfinite (x : float) : bool :=
  match x with S754_zero _ | S754_finite _ _ _ => true | _ => false end.

(** The floats a Python [float] can hold: the mantissa of a finite one is
    canonical for its exponent and the exponent is in range. *)
Definition wf (x : float) : bool := valid_binary prec emax x.

(** [x == y], [x < y] and [x > y] on floats: false as soon as one is NaN. *)
Definition eqb (x y : float) : bool := SFeqb x y.
Definition ltb (x y : float) : bool := SFltb x y.
Definition gtb (x y : float) : bool := SFltb y x.
Definition leb (x y : float) : bool := SFleb x y.

Definition mul (x y : float) : float := SFmul prec emax x y.

(** [x / y]: Python raises on a zero divisor (of either sign) before any
    IEEE division is made. *)
Definition truediv (x y : float) : py float :=
  if eqb y zero then raise ZeroDivisionError
  else ret (SFdiv prec emax x y).

Definition fabs (x : float) : float := SFabs x.

(** C's [copysign(0., x)]. *)
Definition copysign_zero (x : float) : float :=
  match x with
  | S754_zero s | S754_infinity s | S754_finite s _ _ => S754_zero s
  | S754_nan => S754_zero false
  end.

(** C's [fmod(fabs(y), 2.0) == 1.0]: [y] is an odd integer. *)
Definition fmod2_is_1 (y : float) : bool :=
  match y with
  | S754_finite _ m e =>
      match e with
      | Z0 => Z.odd (Zpos m)
      | Zpos _ => false
      | Zneg p => let d := 2 ^ Zpos p in
                  (Zpos m mod d =? 0) && Z.odd (Zpos m / d)
      end
  | _ => false
  end.

End Float.

(** CPython's [math] module (Modules/mathmodule.c) over the C library's
    functions.  The C functions [sin], [cos], [tan] and [pow] are parameters:
    what is proved for every choice of them holds for the platform's libm.
    [sqrt] is the IEEE operation. *)
Module Math.

(** [math.pi], the double nearest to pi (0x400921FB54442D18). *)
Definition pi : float := S754_finite false 7074237752028440 (-51).

(** [degToRad = Py_MATH_PI / 180.0]. *)
Definition degToRad : float :=
  Eval vm_compute in SFdiv prec emax pi (Float.of_int 180).

(** [math.radians(x)]: [x * degToRad]; it raises nothing. *)
Definition radians (x : float) : float := Float.mul x degToRad.

(** [math_1(arg, func, can_overflow)]: the wrapper of the one-argument
    functions.  A NaN from a non-NaN argument is a [ValueError]; an infinity
    from a finite argument is an [OverflowError] when the function can
    overflow and a [ValueError] otherwise. *)
Definition math_1 (func : float -> float) (can_overflow : bool) (x : float)
  : py float :=
  let r := func x in
  if Float.isnan r && negb (Float.isnan x) then raise ValueError
  else if Float.isinf r && Float.isfinite x then
    if can_overflow then raise OverflowError else raise ValueError
  else ret r.

(** When [math_1] raises for a function that cannot overflow. *)
Definition domain_error (func : float -> float) (x : float) : bool :=
  Float.isnan (func x) && negb (Float.isnan x)
  || Float.isinf (func x) && Float.isfinite x.

(** [math.sqrt]: [FUNC1(sqrt, sqrt, 0, ...)]. *)
Definition sqrt : float -> py float := math_1 (SFsqrt prec emax) false.

Section Libm.

Variables c_sin c_cos c_tan : float -> float.
Variable c_pow : float -> float -> float.

(** [math.sin], [math.cos], [math.tan]: [FUNC1(f, f, 0, ...)]. *)
Definition sin : float -> py float := math_1 c_sin false.
Definition cos : float -> py float := math_1 c_cos false.
Definition tan : float -> py float := math_1 c_tan false.

(** [math.pow(x, y)], [math_pow_impl]: the IEEE special values are dealt
    with directly; for finite arguments C's [pow] is called, a NaN result
    and an infinity from a zero base are a [ValueError] (EDOM), another
    infinity is an [OverflowError] (ERANGE). *)
Definition pow (x y : float) : py float :=
  let one := Float.of_int 1 in
  if negb (Float.isfinite x) || negb (Float.isfinite y) then
    if Float.isnan x then
      ret (if Float.eqb y Float.zero then one else x)
    else if Float.isnan y then
      ret (if Float.eqb x one then one else y)
    else if Float.isinf x then
      let odd_y := Float.isfinite y && Float.fmod2_is_1 y in
      if Float.gtb y Float.zero then
        ret (if odd_y then x else Float.fabs x)
      else if Float.eqb y Float.zero then ret one
      else ret (if odd_y then Float.copysign_zero x else Float.zero)
    else
      (* isinf(y) *)
      if Float.eqb (Float.fabs x) one then ret one
      else if Float.gtb y Float.zero && Float.gtb (Float.fabs x) one then ret y
      else if Float.ltb y Float.zero && Float.ltb (Float.fabs x) one then
        ret (SFopp y)
      else ret Float.zero
  else
    let r := c_pow x y in
    if Float.isnan r then raise ValueError
    else if Float.isinf r then
      if Float.eqb x Float.zero then raise ValueError
      else raise OverflowError
    else ret r.

End Libm.

End Math.

(** ** main.py: the calculator *)

Module Calculator.

(** [sys.maxsize] of a 64-bit CPython, the largest [Py_ssize_t]. *)
Definition maxsize : Z := 2 ^ 63 - 1.

Definition INT_MIN : Z := - maxsize - 1.
Definition INT_MAX : Z := maxsize.

(** [FLOAT_MIN] and [FLOAT_MAX], the largest finite doubles of either sign
    ((2^53 - 1) * 2^971); no operation reads them. *)
Definition FLOAT_MIN : float := S754_finite true 9007199254740991 971.
Definition FLOAT_MAX : float := S754_finite false 9007199254740991 971.

(** [check_integer_bounds(value, operation)], main.py lines 18-30. *)
Definition check_integer_bounds (value : Z) (operation : string) : val :=
  if value <? INT_MIN then
    VStr ("Error: Underflow occurred in " ++ operation ++ ". Result is too small.")
  else if value >? INT_MAX then
    VStr ("Error: Overflow occurred in " ++ operation ++ ". Result is too large.")
  else VInt value.

(** [add(a, b)], main.py lines 46-60.  The f-string of the print is built
    before the [try]; Python's [int] addition is exact and raises nothing, so
    the handler is never entered. *)
Definition add (a b : Z) : py val :=
  line <- fstring [Lit "Adding "; Arg (VInt a); Lit " + "; Arg (VInt b)] ;;
  print line ;;
  try (let result := a + b in
       ret (check_integer_bounds result "addition"))
  except [(OverflowError,
           ret (VStr "Error: Overflow occurred in addition. Result is too large."))].

(** [subtract(a, b)], main.py lines 62-76. *)
Definition subtract (a b : Z) : py val :=
  line <- fstring [Lit "Subtracting "; Arg (VInt a); Lit " - "; Arg (VInt b)] ;;
  print line ;;
  try (let result := a - b in
       ret (check_integer_bounds result "subtraction"))
  except [(OverflowError,
           ret (VStr "Error: Overflow occurred in subtraction. Result is too large."))].

(** [multiply(a, b)], main.py lines 78-92. *)
Definition multiply (a b : Z) : py val :=
  line <- fstring [Lit "Multiplying "; Arg (VInt a); Lit " * "; Arg (VInt b)] ;;
  print line ;;
  try (let result := a * b in
       ret (check_integer_bounds result "multiplication"))
  except [(OverflowError,
           ret (VStr "Error: Overflow occurred in multiplication. Result is too large."))].

(** [check_float_bounds(value, operation)], main.py lines 32-44. *)
Definition check_float_bounds (value : float) (operation : string) : val :=
  if Float.eqb value Float.neg_inf then
    VStr ("Error: Underflow occurred in " ++ operation ++ ". Result is too small.")
  else if Float.eqb value Float.inf then
    VStr ("Error: Overflow occurred in " ++ operation ++ ". Result is too large.")
  else VFloat value.

(** [divide(numerator, denominator)], main.py lines 94-110. *)
Definition divide (numerator denominator : float) : py val :=
  line <- fstring [Lit "Dividing "; Arg (VFloat numerator); Lit " / ";
         Arg (VFloat denominator)] ;;
  print line ;;
  if Float.eqb denominator (Float.of_int 0) then
    ret (VStr "Error: Cannot divide by zero.")
  else
    try (result <- Float.truediv numerator denominator ;;
         ret (check_float_bounds result "division"))
    except [(OverflowError, ret (VStr "Error: Overflow occurred in division."))].

(** [square_root(number)], main.py lines 128-142. *)
Definition square_root (number : float) : py val :=
  line <- fstring [Lit "Calculating square root of "; Arg (VFloat number)] ;;
  print line ;;
  if Float.ltb number (Float.of_int 0) then
    ret (VStr "Error: Cannot calculate the square root of a negative number.")
  else
    try (r <- Math.sqrt number ;; ret (VFloat r))
    except [(OverflowError,
             ret (VStr "Error: Overflow occurred in square root calculation."))].

(** Python's [a % b] on [int]: the remainder of the floored division, and
    [ZeroDivisionError] for a zero divisor. *)
Definition int_mod (a b : Z) : py Z :=
  if b =? 0 then raise ZeroDivisionError else ret (a mod b).

(** [modulo(a, b)], main.py lines 144-159. *)
Definition modulo (a b : Z) : py val :=
  line <- fstring [Lit "Calculating "; Arg (VInt a); Lit " % "; Arg (VInt b)] ;;
  print line ;;
  if b =? 0 then
    ret (VStr "Error: Cannot perform modulo with zero divisor.")
  else
    try (r <- int_mod a b ;; ret (VInt r))
    except [(OverflowError,
             ret (VStr "Error: Overflow occurred in modulo operation."))].

Section Libm.

Variables c_sin c_cos c_tan : float -> float.
Variable c_pow : float -> float -> float.

(** [power(base, exponent)], main.py lines 112-126. *)
Definition power (base exponent : float) : py val :=
  line <- fstring [Lit "Calculating "; Arg (VFloat base); Lit " ^ ";
         Arg (VFloat exponent)] ;;
  print line ;;
  try (result <- Math.pow c_pow base exponent ;;
       ret (check_float_bounds result "exponentiation"))
  except [(OverflowError,
           ret (VStr "Error: Overflow occurred in exponentiation. Result is too large."))].

(** [sine(angle_degrees)], main.py lines 161-175. *)
Definition sine (angle_degrees : float) : py val :=
  line <- fstring [Lit "Calculating sin("; Arg (VFloat angle_degrees); Lit "°)"] ;;
  print line ;;
  try (let angle_radians := Math.radians angle_degrees in
       result <- Math.sin c_sin angle_radians ;;
       ret (check_float_bounds result "sine calculation"))
  except [(OverflowError,
           ret (VStr "Error: Overflow occurred in sine calculation."))].

(** [cosine(angle_degrees)], main.py lines 177-191. *)
Definition cosine (angle_degrees : float) : py val :=
  line <- fstring [Lit "Calculating cos("; Arg (VFloat angle_degrees); Lit "°)"] ;;
  print line ;;
  try (let angle_radians := Math.radians angle_degrees in
       result <- Math.cos c_cos angle_radians ;;
       ret (check_float_bounds result "cosine calculation"))
  except [(OverflowError,
           ret (VStr "Error: Overflow occurred in cosine calculation."))].

(** [tangent(angle_degrees)], main.py lines 193-209. *)
Definition tangent (angle_degrees : float) : py val :=
  line <- fstring [Lit "Calculating tan("; Arg (VFloat angle_degrees); Lit "°)"] ;;
  print line ;;
  try (let angle_radians := Math.radians angle_degrees in
       result <- Math.tan c_tan angle_radians ;;
       ret (check_float_bounds result "tangent calculation"))
  except [(OverflowError,
           ret (VStr "Error: Overflow occurred in tangent calculation."));
          (ValueError,
           ret (VStr "Error: Invalid input for tangent calculation."))].

End Libm.

End Calculator.


(** ** The [random] and [datetime] modules *)

Module Random.

(** [genrand_uint32]: the next 32-bit word of the generator. *)
Definition genrand_uint32 : py Z :=
  fun w =>
    (Return (rng_draws w (rng_pos w) mod 2 ^ 32),
     {| stdout := stdout w; rng_draws := rng_draws w;
        rng_pos := S (rng_pos w); now := now w; fuel := fuel w |}).

(** [getrandbits(k)] for [k > 32]: the words are drawn from the least
    significant one, and the last word gives its top bits only. *)
Fixpoint getrandbits_words (words : nat) (k : Z) : py Z :=
  match words with
  | O => ret 0
  | S rest =>
      r <- genrand_uint32 ;;
      high <- getrandbits_words rest (k - 32) ;;
      ret ((if k <? 32 then Z.shiftr r (32 - k) else r) + Z.shiftl high 32)
  end.

(** [Random.getrandbits(k)] ([_random_Random_getrandbits_impl]); [k] is a
    C [int]. *)
Definition getrandbits (k : Z) : py Z :=
  if k >? 2 ^ 31 - 1 then raise OverflowError
  else if k <? 0 then raise ValueError
  else if k =? 0 then ret 0
  else if k <=? 32 then
    r <- genrand_uint32 ;; ret (Z.shiftr r (32 - k))
  else getrandbits_words (Z.to_nat ((k - 1) / 32 + 1)) k.

(** [n.bit_length()]. *)
Definition bit_length (n : Z) : Z :=
  if n =? 0 then 0 else Z.log2 (Z.abs n) + 1.

(** The loop of [_randbelow]: draw [k] bits until the draw is below [n]. *)
Fixpoint randbelow_loop (iterations : nat) (n k : Z) : py Z :=
  match iterations with
  | O => diverge
  | S iterations' =>
      r <- getrandbits k ;;
      if r >=? n then randbelow_loop iterations' n k else ret r
  end.

(** [Random._randbelow(n)] ([_randbelow_with_getrandbits]) for [n > 0]:
    rejection sampling over draws of [n.bit_length()] bits. *)
Definition randbelow (n : Z) : py Z :=
  fun w => randbelow_loop (fuel w) n (bit_length n) w.

(** [Random.randrange(start, stop)] with the default step 1. *)
Definition randrange (start stop : Z) : py Z :=
  let width := stop - start in
  if width >? 0 then
    r <- randbelow width ;; ret (start + r)
  else raise ValueError.

(** [Random.randint(a, b)]: [randrange(a, b+1)]. *)
Definition randint (a b : Z) : py Z := randrange a (b + 1).

(** The world after [words] more words were taken from the generator. *)
Definition skip (words : nat) (w : world) : world :=
  {| stdout := stdout w; rng_draws := rng_draws w;
     rng_pos := (words + rng_pos w)%nat; now := now w; fuel := fuel w |}.

(** The number of words that one draw of [k] bits takes. *)
Definition words_of (k : Z) : nat :=
  if k <=? 32 then 1%nat else Z.to_nat ((k - 1) / 32 + 1).

(** The number that the next draw of [k] bits gives in world [w]. *)
Definition next_draw (k : Z) (w : world) : Z :=
  match fst (getrandbits k w) with
  | Return r => r
  | _ => 0
  end.

(** The [j]-th draw of [k] bits from world [w] on, counted from 0. *)
Definition draw (k : Z) (w : world) (j : nat) : Z :=
  next_draw k (skip (j * words_of k) w).

End Random.

Module Datetime.

Definition digit (n : N) : string :=
  String (ascii_of_N (48 + n mod 10)) EmptyString.

Definition pad2 (n : N) : string := digit (n / 10) ++ digit n.

Definition pad4 (n : N) : string := pad2 (n / 100) ++ pad2 n.

(** [%Y]: the year in decimal, not padded (the C library's [strftime]);
    a [datetime] has a year of 1 to 9999. *)
Definition year_digits (y : N) : string :=
  if (y <? 10)%N then digit y
  else if (y <? 100)%N then pad2 y
  else if (y <? 1000)%N then digit (y / 100) ++ pad2 y
  else pad4 y.

(** [d.strftime("%Y-%m-%d %H:%M:%S")]: the other fields have two digits. *)
Definition strftime (d : datetime) : string :=
  year_digits (year d) ++ "-" ++ pad2 (month d) ++ "-" ++ pad2 (day d) ++ " " ++
  pad2 (hour d) ++ ":" ++ pad2 (minute d) ++ ":" ++ pad2 (second d).

(** The values that the fields of a [datetime] can have. *)
Definition valid (d : datetime) : bool :=
  ((1 <=? year d) && (year d <=? 9999) && (1 <=? month d) && (month d <=? 12)
   && (1 <=? day d) && (day d <=? 31) && (hour d <=? 23) && (minute d <=? 59)
   && (second d <=? 59))%N.

(** [datetime.now()]. *)
Definition get_now : py datetime := fun w => (Return (now w), w).

End Datetime.

(** ** main-enhanced.py: the demo tools *)

Module Demo.

(** [add(a, b)], main-enhanced.py lines 8-11. *)
Definition add (a b : Z) : py val := ret (VInt (a + b)).

(** [multiply(a, b)], main-enhanced.py lines 13-16. *)
Definition multiply (a b : Z) : py val := ret (VInt (a * b)).

(** [random_number(min_val, max_val)], main-enhanced.py lines 18-21; the
    defaults are [min_val = 1] and [max_val = 100]. *)
Definition random_number (min_val max_val : Z) : py val :=
  r <- Random.randint min_val max_val ;; ret (VInt r).

(** [current_time()], main-enhanced.py lines 23-26. *)
Definition current_time : py val :=
  d <- Datetime.get_now ;; ret (VStr (Datetime.strftime d)).

(** [calculate_circle_area(radius)], main-enhanced.py lines 28-31:
    [math.pi * radius * radius], multiplied from the left. *)
Definition calculate_circle_area (radius : float) : py val :=
  ret (VFloat (Float.mul (Float.mul Math.pi radius) radius)).

Section Unicode.

(** [str.upper]: the full upper-case mapping of the Unicode database. *)
Variable str_upper : string -> string.

(** [to_uppercase(text)], main-enhanced.py lines 33-36. *)
Definition to_uppercase (text : string) : py val :=
  ret (VStr (str_upper text)).

End Unicode.

End Demo.

(** ** A reference C library

    The theorems about [power], [sine], [cosine] and [tangent] hold for every
    C library.  To evaluate them at a given angle a library is needed:
    [RefLibm.tan], [RefLibm.sin] and [RefLibm.cos] compute the function of a
    binary64 in fixed-point arithmetic and round it to the nearest binary64.
    The argument is reduced with 1280 fractional bits of pi/2, enough for
    the largest double, and sine and cosine are summed with 256.
    [RefLibm.pow] has the special cases of the C standard; where the power
    is a dyadic number it is computed exactly and rounded once, to nearest
    with ties to even, and otherwise it is [exp(y * ln x)] summed with 256
    fractional bits and rounded.

    A platform's library need not round to nearest: the GNU C library keeps
    its [pow] within one unit in the last place and differs from
    [RefLibm.pow] at a few arguments, such as [pow(10, 23)], the exact value
    of which lies half-way between two doubles.  The lemmas that evaluate a
    reference function do so at arguments where the two agree. *)

Module RefLibm.

(** Fractional bits: [P] for the reduction of the argument, [Q] for the
    series. *)
Definition P : Z := 1280.
Definition Q : Z := 256.

(** [atan(1/n) * 2^bits], by the alternating series. *)
Fixpoint atan_inv_series (fuel : nat) (n2 term k acc : Z) : Z :=
  match fuel with
  | O => acc
  | S fuel' =>
      if term =? 0 then acc
      else
        let t := term / (2 * k + 1) in
        atan_inv_series fuel' n2 (term / n2) (k + 1)
          (if Z.even k then acc + t else acc - t)
  end.

Definition atan_inv (bits n : Z) : Z :=
  atan_inv_series 2000 (n * n) (2 ^ bits / n) 0 0.

(** [pi/2 * 2^P], by Machin's formula with 64 guard bits. *)
Definition half_pi : Z :=
  Eval vm_compute in
    Z.shiftr (8 * atan_inv (P + 64) 5 - 2 * atan_inv (P + 64) 239) 64.

(** The product of two numbers of [Q] fractional bits. *)
Definition mulQ (a b : Z) : Z := Z.shiftr (a * b) Q.

(** [sum_{j >= 0} (-1)^j r^(2j+i) / (2j+i)!] from the term [t] of index [n]. *)
Fixpoint alt_series (fuel : nat) (r2 t n acc : Z) : Z :=
  match fuel with
  | O => acc
  | S fuel' =>
      if t =? 0 then acc
      else
        let t' := - (mulQ t r2 / ((n + 1) * (n + 2))) in
        alt_series fuel' r2 t' (n + 2) (acc + t)
  end.

Definition sin_fix (r : Z) : Z := alt_series 200 (mulQ r r) r 1 0.
Definition cos_fix (r : Z) : Z := alt_series 200 (mulQ r r) (2 ^ Q) 0 0.

(** The octant of [|x| = m * 2^e >= 2^-27]: [k = round(|x| / (pi/2))] and
    [r = |x| - k * pi/2] with [Q] fractional bits. *)
Definition reduce (m : positive) (e : Z) : Z * Z :=
  let X := Z.shiftl (Zpos m) (e + P) in
  let k := (2 * X + half_pi) / (2 * half_pi) in
  (k, Z.shiftr (X - k * half_pi) (P - Q)).

(** The binary64 nearest to [n / d], for [d <> 0] and an inexact quotient. *)
Definition round_quot (n d : Z) : float :=
  let q := Z.shiftl (Z.abs n) 128 / Z.abs d in
  let neg := xorb (n <? 0) (d <? 0) in
  binary_normalize prec emax (if neg then - (2 * q + 1) else 2 * q + 1) (-129) false.

(** [|x| = m * 2^e < 2^-27]: the sine and the tangent round to [x] itself
    and the cosine to 1. *)
Definition tiny (m : positive) (e : Z) : bool :=
  Zpos (digits2_pos m) + e <=? -27.

(** C's [tan]. *)
Definition tan (x : float) : float :=
  match x with
  | S754_nan | S754_infinity _ => S754_nan
  | S754_zero _ => x
  | S754_finite s m e =>
      if tiny m e then x
      else
        let '(k, r) := reduce m e in
        let sn := sin_fix r in
        let cs := cos_fix r in
        let '(n, d) := if Z.even k then (sn, cs) else (- cs, sn) in
        if d =? 0 then S754_infinity s
        else round_quot (if s then - n else n) d
  end.

(** C's [sin]. *)
Definition sin (x : float) : float :=
  match x with
  | S754_nan | S754_infinity _ => S754_nan
  | S754_zero _ => x
  | S754_finite s m e =>
      if tiny m e then x
      else
        let '(k, r) := reduce m e in
        let v := match k mod 4 with
                 | 0 => sin_fix r | 1 => cos_fix r
                 | 2 => - sin_fix r | _ => - cos_fix r end in
        round_quot (if s then - v else v) (2 ^ Q)
  end.

(** C's [cos]. *)
Definition cos (x : float) : float :=
  match x with
  | S754_nan | S754_infinity _ => S754_nan
  | S754_zero _ => Float.of_int 1
  | S754_finite s m e =>
      if tiny m e then Float.of_int 1
      else
        let '(k, r) := reduce m e in
        let v := match k mod 4 with
                 | 0 => cos_fix r | 1 => - sin_fix r
                 | 2 => - cos_fix r | _ => sin_fix r end in
        round_quot v (2 ^ Q)
  end.

(** [sum_{k >= 0} z^(2k+1) / (2k+1)] from the term [t = z^(2k+1)]. *)
Fixpoint atanh_series (fuel : nat) (z2 t k acc : Z) : Z :=
  match fuel with
  | O => acc
  | S fuel' =>
      if t =? 0 then acc
      else atanh_series fuel' z2 (mulQ t z2) (k + 1) (acc + t / (2 * k + 1))
  end.

(** [ln t] for [1 <= t <= 2], both with [Q] fractional bits:
    [2 * atanh((t - 1) / (t + 1))]. *)
Definition ln_mantissa (t : Z) : Z :=
  let z := Z.shiftl (t - 2 ^ Q) Q / (t + 2 ^ Q) in
  2 * atanh_series 400 (mulQ z z) z 0 0.

Definition ln2 : Z := Eval vm_compute in ln_mantissa (2 ^ (Q + 1)).

(** [ln (m * 2^e)] with [Q] fractional bits. *)
Definition ln_fix (m : positive) (e : Z) : Z :=
  let d := Zpos (digits2_pos m) in
  (e + d - 1) * ln2 + ln_mantissa (Z.shiftl (Zpos m) (Q - (d - 1))).

(** [exp r] for a small [r]: [sum r^k / k!] from the term [t] of index [k]. *)
Fixpoint exp_series (fuel : nat) (r t k acc : Z) : Z :=
  match fuel with
  | O => acc
  | S fuel' =>
      if t =? 0 then acc
      else exp_series fuel' r (mulQ t r / (k + 1)) (k + 1) (acc + t)
  end.

(** [m = o * 2^t] with [o] odd. *)
Fixpoint odd_part (m : positive) : positive * Z :=
  match m with
  | xO p => let '(o, t) := odd_part p in (o, t + 1)
  | _ => (m, 0)
  end.

(** The square root of [o * 2^e], [o] odd, when it is a dyadic number. *)
Definition exact_sqrt (o : positive) (e : Z) : option (positive * Z) :=
  let r := Z.sqrt (Zpos o) in
  if Z.even e && (r * r =? Zpos o) then Some (Z.to_pos r, e / 2) else None.

(** The [2^q]-th root of [o * 2^e], when it is a dyadic number. *)
Fixpoint exact_root (q : nat) (o : positive) (e : Z) : option (positive * Z) :=
  match q with
  | O => Some (o, e)
  | S q' =>
      match exact_sqrt o e with
      | Some (o', e') => exact_root q' o' e'
      | None => None
      end
  end.

(** [(o * 2^e)^n] or its inverse, [o] odd and [n >= 1], rounded once, when
    the power is a dyadic number that can be a double or half-way between
    two doubles: a power of two, or an integer of moderate length. *)
Definition exact_pow (o : positive) (e : Z) (inverse : bool) (n : Z)
  : option float :=
  if (o =? 1)%positive then
    let e' := (if inverse then - e else e) * n in
    Some (if e' >? 3000 then S754_infinity false
          else if e' <? -3000 then S754_zero false
          else binary_normalize prec emax 1 e' false)
  else if inverse then None
  else if n * Zpos (digits2_pos o) <=? 6000 then
    Some (binary_normalize prec emax (Zpos o ^ n) (e * n) false)
  else None.

(** [exp(y * ln x)] with [Q] fractional bits, rounded to binary64. *)
Definition pow_series (m : positive) (e : Z) (sy : bool) (my : positive) (ey : Z)
  : float :=
  let l := ln_fix m e in
  if l =? 0 then Float.of_int 1
  else
    let big := Zpos (digits2_pos my) + ey + Zdigits2 l - Q >? 12 in
    let neg := xorb sy (l <? 0) in
    if big then (if neg then S754_zero false else S754_infinity false)
    else
      let a := Zpos my * Z.abs l in
      let v := if 0 <=? ey then Z.shiftl a ey else Z.shiftr a (- ey) in
      let v := if neg then - v else v in
      let n := (2 * v + ln2) / (2 * ln2) in
      let r := v - n * ln2 in
      let ex := exp_series 400 r (2 ^ Q) 0 0 in
      binary_normalize prec emax (2 * ex + 1) (n - Q - 1) false.

(** [x^y] for [x = m * 2^e > 0] and [y = (-1)^sy * my * 2^ey]: the exact
    power rounded once where the power is a dyadic number, the series
    otherwise. *)
Definition pow_pos (m : positive) (e : Z) (sy : bool) (my : positive) (ey : Z)
  : float :=
  let '(o, t) := odd_part m in
  let '(p, u) := odd_part my in
  let exact :=
    if 0 <=? ey + u then exact_pow o (e + t) sy (Zpos p * 2 ^ (ey + u))
    else
      match exact_root (Z.to_nat (- (ey + u))) o (e + t) with
      | Some (o', e') => exact_pow o' e' sy (Zpos p)
      | None => None
      end in
  match exact with
  | Some r => r
  | None => pow_series m e sy my ey
  end.

Definition is_integer (y : float) : bool :=
  match y with
  | S754_zero _ => true
  | S754_finite _ m e =>
      match e with
      | Zneg p => Zpos m mod 2 ^ Zpos p =? 0
      | _ => true
      end
  | _ => false
  end.

Definition sign (x : float) : bool :=
  match x with
  | S754_zero s | S754_infinity s | S754_finite s _ _ => s
  | S754_nan => false
  end.

(** C's [pow] (C99 7.12.7.4 and F.9.4.4). *)
Definition pow (x y : float) : float :=
  let one := Float.of_int 1 in
  let odd := Float.fmod2_is_1 y in
  match x, y with
  | _, S754_zero _ => one
  | S754_nan, _ => S754_nan
  | _, S754_nan => if Float.eqb x one then one else S754_nan
  | S754_zero sx, _ =>
      if sign y then S754_infinity (sx && odd) else S754_zero (sx && odd)
  | S754_infinity sx, _ =>
      if sign y then S754_zero (sx && odd) else S754_infinity (sx && odd)
  | S754_finite sx m e, S754_infinity sy =>
      if Float.eqb (Float.fabs x) one then one
      else if xorb sy (Float.ltb (Float.fabs x) one) then S754_zero false
      else S754_infinity false
  | S754_finite sx m e, S754_finite sy my ey =>
      if sx && negb (is_integer y) then S754_nan
      else
        let r := pow_pos m e sy my ey in
        if sx && odd then SFopp r else r
  end.

End RefLibm.

(** ** The worlds used to run the operations on concrete inputs *)

Definition noon : datetime :=
  {| year := 2024; month := 2; day := 29; hour := 12; minute := 0; second := 0 |}.

Definition world0 : world :=
  {| stdout := []; rng_draws := fun _ => 0; rng_pos := 0%nat; now := noon;
     fuel := 64 |}.

(** Another world: other draws, a later clock, a line already printed. *)
Definition world1 : world :=
  {| stdout := [[Lit "Calculator Pro is ready!"]];
     rng_draws := fun n => 3000000000 + Z.of_nat n; rng_pos := 3%nat;
     now := {| year := 2025; month := 12; day := 31;
               hour := 23; minute := 59; second := 58 |};
     fuel := 64 |}.

(** * Properties *)

(** ** Running the monad *)

Lemma bind_ret {A B} (a : A) (k : A -> py B) (w : world) :
  bind (ret a) k w = k a w.
Proof. reflexivity. Qed.

Lemma bind_raise {A B} (e : exn) (k : A -> py B) (w : world) :
  bind (raise e) k w = (Raise e, w).
Proof. reflexivity. Qed.

(** An f-string is built when all its fields convert and raises
    [ValueError] otherwise; the world is not touched. *)
Lemma fstring_cases (pieces : list frag) (w : world) :
  fstring pieces w =
  if formattable pieces then (Return pieces, w) else (Raise ValueError, w).
Proof.
  induction pieces as [|f rest IH]; [reflexivity|].
  assert (forall f', bind (fstring rest) (fun rest' => ret (f' :: rest')) w
                     = if formattable rest then (Return (f' :: rest), w)
                       else (Raise ValueError, w)) as Hrest.
  { intros f'. unfold bind. rewrite IH. destruct (formattable rest); reflexivity. }
  cbn [fstring formattable forallb]. fold (formattable rest).
  destruct f as [s|[z|x|s]]; cbn [format_field andb];
    try (rewrite bind_ret, Hrest; reflexivity).
  destruct (printable z); cbn [andb].
  - rewrite bind_ret, Hrest. reflexivity.
  - apply bind_raise.
Qed.

Lemma result_print_bind {A} (line : list frag) (k : unit -> py A) (w : world) :
  result (bind (fstring line) (fun s => bind (print s) k)) w =
  if formattable line then result (k tt) (printed line w) else Raise ValueError.
Proof.
  unfold result, bind at 1. rewrite fstring_cases.
  destruct (formattable line); reflexivity.
Qed.

(** The step over the print of an operation; a line with no [int] field
    always prints. *)
Ltac print_step :=
  rewrite !result_print_bind; cbn [formattable forallb andb].

(** Every integer of the representable range converts to [str]. *)
Lemma in_range_printable (z : Z) :
  Calculator.INT_MIN <= z <= Calculator.INT_MAX -> printable z = true.
Proof.
  unfold Calculator.INT_MIN, Calculator.INT_MAX, Calculator.maxsize, printable.
  intros H. apply Z.ltb_lt.
  assert (2 ^ 63 < str_digits_bound) by (vm_compute; reflexivity). lia.
Qed.

(** ** Integer bounds *)

Module IntBounds.
Import Calculator.

Lemma in_range (value : Z) (operation : string) :
  INT_MIN <= value <= INT_MAX ->
  check_integer_bounds value operation = VInt value.
Proof.
  intros [Hlo Hhi]. unfold check_integer_bounds.
  destruct (Z.ltb_spec value INT_MIN); [lia|].
  destruct (Z.gtb_spec value INT_MAX); [lia|]. reflexivity.
Qed.

Lemma above (value : Z) (operation : string) :
  INT_MAX < value ->
  check_integer_bounds value operation
  = VStr ("Error: Overflow occurred in " ++ operation ++ ". Result is too large.").
Proof.
  intros H. unfold check_integer_bounds.
  assert (INT_MIN <= INT_MAX) by (unfold INT_MIN, INT_MAX, maxsize; lia).
  destruct (Z.ltb_spec value INT_MIN); [lia|].
  destruct (Z.gtb_spec value INT_MAX); [reflexivity|lia].
Qed.

Lemma below (value : Z) (operation : string) :
  value < INT_MIN ->
  check_integer_bounds value operation
  = VStr ("Error: Underflow occurred in " ++ operation ++ ". Result is too small.").
Proof.
  intros H. unfold check_integer_bounds.
  destruct (Z.ltb_spec value INT_MIN); [reflexivity|lia].
Qed.

Lemma add_result (a b : Z) (w : world) :
  result (add a b) w =
  if printable a && printable b
  then Return (check_integer_bounds (a + b) "addition")
  else Raise ValueError.
Proof.
  unfold add. print_step. destruct (printable a), (printable b); reflexivity.
Qed.

Lemma subtract_result (a b : Z) (w : world) :
  result (subtract a b) w =
  if printable a && printable b
  then Return (check_integer_bounds (a - b) "subtraction")
  else Raise ValueError.
Proof.
  unfold subtract. print_step. destruct (printable a), (printable b); reflexivity.
Qed.

Lemma multiply_result (a b : Z) (w : world) :
  result (multiply a b) w =
  if printable a && printable b
  then Return (check_integer_bounds (a * b) "multiplication")
  else Raise ValueError.
Proof.
  unfold multiply. print_step. destruct (printable a), (printable b); reflexivity.
Qed.

End IntBounds.

(** C1.  For all integers [a] and [b] that convert to [str] -- those of the
    representable range do, by [in_range_printable] -- [add(a, b)] returns
    the exact sum when it lies in [INT_MIN .. INT_MAX], the overflow message
    of "addition" when it is above [INT_MAX] and the underflow message when
    it is below [INT_MIN]; [subtract] and [multiply] do the same with the
    exact difference and product and the names "subtraction" and
    "multiplication". *)
Theorem calculator_add_subtract_multiply (a b : Z) (w : world) :
  printable a = true -> printable b = true ->
  let INT_MIN := Calculator.INT_MIN in
  let INT_MAX := Calculator.INT_MAX in
  ((INT_MIN <= a + b <= INT_MAX ->
    result (Calculator.add a b) w = Return (VInt (a + b))) /\
   (a + b > INT_MAX ->
    result (Calculator.add a b) w
    = Return (VStr "Error: Overflow occurred in addition. Result is too large.")) /\
   (a + b < INT_MIN ->
    result (Calculator.add a b) w
    = Return (VStr "Error: Underflow occurred in addition. Result is too small."))) /\
  ((INT_MIN <= a - b <= INT_MAX ->
    result (Calculator.subtract a b) w = Return (VInt (a - b))) /\
   (a - b > INT_MAX ->
    result (Calculator.subtract a b) w
    = Return (VStr "Error: Overflow occurred in subtraction. Result is too large.")) /\
   (a - b < INT_MIN ->
    result (Calculator.subtract a b) w
    = Return (VStr "Error: Underflow occurred in subtraction. Result is too small."))) /\
  ((INT_MIN <= a * b <= INT_MAX ->
    result (Calculator.multiply a b) w = Return (VInt (a * b))) /\
   (a * b > INT_MAX ->
    result (Calculator.multiply a b) w
    = Return (VStr "Error: Overflow occurred in multiplication. Result is too large.")) /\
   (a * b < INT_MIN ->
    result (Calculator.multiply a b) w
    = Return (VStr "Error: Underflow occurred in multiplication. Result is too small."))).
Proof.
  intros Ha Hb INT_MIN INT_MAX.
  rewrite IntBounds.add_result, IntBounds.subtract_result,
    IntBounds.multiply_result, Ha, Hb. cbn [andb].
  repeat split; intros H;
    first [ rewrite IntBounds.in_range by exact H
          | rewrite IntBounds.above by (subst INT_MAX; lia)
          | rewrite IntBounds.below by (subst INT_MIN; lia) ];
    reflexivity.
Qed.

(** The theorem at [a = INT_MAX], [b = 1] and at [a = INT_MIN], [b = 1]:
    both arguments are in range; the sum overflows and the difference
    underflows. *)
Lemma calculator_add_subtract_multiply_at_the_bounds :
  result (Calculator.add Calculator.INT_MAX 1) world0
  = Return (VStr "Error: Overflow occurred in addition. Result is too large.") /\
  result (Calculator.subtract Calculator.INT_MIN 1) world0
  = Return (VStr "Error: Underflow occurred in subtraction. Result is too small.").
Proof.
  split.
  - apply (calculator_add_subtract_multiply Calculator.INT_MAX 1 world0);
      [apply in_range_printable|apply in_range_printable|];
      unfold Calculator.INT_MIN, Calculator.INT_MAX, Calculator.maxsize; lia.
  - apply (calculator_add_subtract_multiply Calculator.INT_MIN 1 world0);
      [apply in_range_printable|apply in_range_printable|];
      unfold Calculator.INT_MIN, Calculator.INT_MAX, Calculator.maxsize; lia.
Defined.

(** ** Rounding to binary64 stays finite below 2^1023

    [binary_round_aux] is the rounding step that ends every IEEE operation
    of the Standard Library's specification.  A mantissa and exponent whose
    value is below [2^1023] round to a zero or to a finite float. *)

Module Rounding.

Lemma digits2_pos_bounds (p : positive) :
  2 ^ (Zpos (digits2_pos p) - 1) <= Zpos p < 2 ^ Zpos (digits2_pos p).
Proof.
  induction p as [p IH | p IH |]; cbn [digits2_pos].
  - rewrite Pos2Z.inj_succ.
    replace (Z.succ (Zpos (digits2_pos p)) - 1) with (Z.succ (Zpos (digits2_pos p) - 1)) by lia.
    rewrite !Z.pow_succ_r by lia. lia.
  - rewrite Pos2Z.inj_succ.
    replace (Z.succ (Zpos (digits2_pos p)) - 1) with (Z.succ (Zpos (digits2_pos p) - 1)) by lia.
    rewrite !Z.pow_succ_r by lia. lia.
  - cbn. lia.
Qed.

Lemma lt_pow_of_digits (m k : Z) :
  0 <= m -> Zdigits2 m <= k -> m < 2 ^ k.
Proof.
  intros Hm Hk. destruct m as [|p|p]; [|cbn in Hk|lia].
  - apply Z.pow_pos_nonneg; [lia|]. cbn in Hk. lia.
  - pose proof (digits2_pos_bounds p) as [_ H].
    eapply Z.lt_le_trans; [exact H|]. apply Z.pow_le_mono_r; lia.
Qed.

Lemma digits_of_lt_pow (m k : Z) :
  0 <= k -> m < 2 ^ k -> Zdigits2 m <= k \/ m < 0.
Proof.
  intros Hk H. destruct m as [|p|p]; [left; cbn; lia| |right; lia].
  left. cbn. pose proof (digits2_pos_bounds p) as [Hlo _].
  assert (2 ^ (Zpos (digits2_pos p) - 1) < 2 ^ k) as Hlt by lia.
  apply Z.pow_lt_mono_r_iff in Hlt; lia.
Qed.

Lemma shr_1_m (mrs : shr_record) :
  0 <= shr_m mrs -> shr_m (shr_1 mrs) = shr_m mrs / 2.
Proof.
  destruct mrs as [m r s]. cbn [shr_m]. intros Hm.
  destruct m as [|[p|p|]|p]; cbn [shr_1 shr_m]; try lia; try reflexivity.
  - apply Z.div_unique with 1; lia.
  - apply Z.div_unique with 0; lia.
Qed.

Lemma iter_shr_1_m (p : positive) (mrs : shr_record) :
  0 <= shr_m mrs ->
  shr_m (iter_pos shr_1 p mrs) = shr_m mrs / 2 ^ Zpos p.
Proof.
  revert mrs. induction p as [p IH | p IH |]; intros mrs Hm; cbn [iter_pos].
  - assert (0 <= shr_m (shr_1 mrs)) as H1
        by (rewrite shr_1_m by exact Hm; apply Z.div_pos; lia).
    assert (0 <= shr_m (iter_pos shr_1 p (shr_1 mrs))) as H2
        by (rewrite IH by exact H1; apply Z.div_pos; [exact H1|lia]).
    rewrite IH by exact H2. rewrite IH by exact H1. rewrite shr_1_m by exact Hm.
    rewrite !Z.div_div by lia. f_equal.
    replace (Zpos p~1) with (Zpos p + Zpos p + 1) by lia.
    rewrite !Z.pow_add_r by lia. ring.
  - assert (0 <= shr_m (iter_pos shr_1 p mrs)) as H2
        by (rewrite IH by exact Hm; apply Z.div_pos; [exact Hm|lia]).
    rewrite IH by exact H2. rewrite IH by exact Hm.
    rewrite !Z.div_div by lia. f_equal.
    replace (Zpos p~0) with (Zpos p + Zpos p) by lia.
    rewrite !Z.pow_add_r by lia. ring.
  - rewrite shr_1_m by exact Hm. reflexivity.
Qed.

Lemma fexp_le (x b : Z) : x - 53 <= b -> -1074 <= b -> fexp prec emax x <= b.
Proof. unfold fexp, emin, prec, emax. lia. Qed.

(** What [shr_fexp] does to a non-negative mantissa: nothing, or a shift to
    the exponent [fexp] asks for. *)
Lemma shr_fexp_spec (m e : Z) (l : location) :
  0 <= m ->
  let '(mrs, e') := shr_fexp prec emax m e l in
  (e' = e /\ shr_m mrs = m) \/
  (e' = fexp prec emax (Zdigits2 m + e) /\ e < e' /\
   shr_m mrs = m / 2 ^ (e' - e)).
Proof.
  intros Hm. unfold shr_fexp, shr.
  assert (shr_m (shr_record_of_loc m l) = m) as Hrec
      by (destruct l as [|[]]; reflexivity).
  destruct (fexp prec emax (Zdigits2 m + e) - e) as [|p|p] eqn:En.
  - left. split; [reflexivity|exact Hrec].
  - right. split; [lia|]. split; [lia|].
    rewrite iter_shr_1_m by (rewrite Hrec; exact Hm).
    rewrite Hrec. f_equal. f_equal. lia.
  - left. split; [reflexivity|exact Hrec].
Qed.

(** A mantissa below [2^(K - e)] stays below [2^(K - e')] at the new
    exponent [e'], which is at most [K - 53] when it moved. *)
Lemma shr_fexp_bound (K m e : Z) (l : location) :
  -1074 <= K - 53 -> 0 <= m -> e <= K -> m < 2 ^ (K - e) ->
  let '(mrs, e') := shr_fexp prec emax m e l in
  0 <= shr_m mrs < 2 ^ (K - e') /\ (e' = e \/ e' <= K - 53).
Proof.
  intros HK Hm He Hlt.
  pose proof (shr_fexp_spec m e l Hm) as Hspec.
  destruct (shr_fexp prec emax m e l) as [mrs e'].
  destruct Hspec as [[-> ->] | (He' & Hee' & ->)].
  - split; [lia|left; reflexivity].
  - assert (e' <= K - 53) as Hub.
    { rewrite He'. apply fexp_le; [|exact HK].
      destruct (digits_of_lt_pow m (K - e)) as [Hd|Hd]; lia. }
    split; [|right; exact Hub]. split.
    + apply Z.div_pos; [exact Hm|]. apply Z.pow_pos_nonneg; lia.
    + apply Z.div_lt_upper_bound; [apply Z.pow_pos_nonneg; lia|].
      rewrite <- Z.pow_add_r by lia.
      replace (e' - e + (K - e')) with (K - e) by lia. exact Hlt.
Qed.

Lemma round_nearest_even_bounds (m : Z) (l : location) :
  m <= round_nearest_even m l <= m + 1.
Proof. destruct l as [|[]]; cbn; try destruct (Z.even m); lia. Qed.

(** A value below [2^1023] rounds to a zero or a finite float of the sign
    asked for: no infinity, no NaN. *)
Lemma binary_round_aux_finite (s : bool) (m e : Z) (l : location) :
  0 <= m -> e <= 970 -> m < 2 ^ (1023 - e) ->
  match binary_round_aux prec emax s m e l with
  | S754_zero s' | S754_finite s' _ _ => s' = s
  | _ => False
  end.
Proof.
  intros Hm He Hlt. unfold binary_round_aux.
  pose proof (shr_fexp_bound 1023 m e l ltac:(lia) Hm ltac:(lia) Hlt) as H1.
  destruct (shr_fexp prec emax m e l) as [mrs1 e1].
  destruct H1 as [[Hm1 Hlt1] He1].
  set (m2 := round_nearest_even (shr_m mrs1) (loc_of_shr_record mrs1)).
  pose proof (round_nearest_even_bounds (shr_m mrs1) (loc_of_shr_record mrs1))
    as Hr. fold m2 in Hr.
  assert (m2 < 2 ^ (1024 - e1)) as Hlt2.
  { replace (1024 - e1) with (Z.succ (1023 - e1)) by lia.
    rewrite Z.pow_succ_r by lia. lia. }
  pose proof (shr_fexp_bound 1024 m2 e1 loc_Exact ltac:(lia) ltac:(lia)
                ltac:(lia) Hlt2) as H2.
  destruct (shr_fexp prec emax m2 e1 loc_Exact) as [mrs2 e2].
  destruct H2 as [[Hm2 _] He2].
  destruct (shr_m mrs2) as [|p|p]; [reflexivity| |lia].
  assert ((e2 <=? emax - prec) = true) as ->
      by (apply Z.leb_le; unfold emax, prec; lia).
  reflexivity.
Qed.

End Rounding.

(** ** Facts about binary64 operations *)

Module FloatFacts.

Lemma bounded_spec (m : positive) (e : Z) :
  bounded prec emax m e = true ->
  Zpos m < 2 ^ 53 /\ -1074 <= e <= 971.
Proof.
  unfold bounded, canonical_mantissa, fexp, emin, prec, emax.
  intros H. apply andb_true_iff in H as [Hc He].
  apply Z.eqb_eq in Hc. apply Z.leb_le in He.
  split; [|lia].
  apply Rounding.lt_pow_of_digits; [lia|]. cbn [Zdigits2]. lia.
Qed.

(** Equality with an infinity is being that infinity. *)
Lemma eqb_infinity (x : float) (s : bool) :
  Float.eqb x (S754_infinity s) = true <-> x = S754_infinity s.
Proof.
  split.
  - destruct x as [sx|sx| |sx mx ex], s; try destruct sx; cbn;
      try discriminate; reflexivity.
  - intros ->. destruct s; reflexivity.
Qed.

(** Equality with zero is being one of the two zeros. *)
Lemma eqb_zero (x : float) :
  Float.eqb x (Float.of_int 0) = true <-> exists s, x = S754_zero s.
Proof.
  split.
  - destruct x as [sx|sx| |sx mx ex]; try destruct sx; cbn;
      try discriminate; eauto.
  - intros [s ->]. reflexivity.
Qed.

(** The square root of a well-formed positive float is finite and not
    negative. *)
Lemma sqrt_finite (mx : positive) (ex : Z) :
  bounded prec emax mx ex = true ->
  match SFsqrt prec emax (S754_finite false mx ex) with
  | S754_zero s | S754_finite s _ _ => s = false
  | _ => False
  end.
Proof.
  intros Hb. apply bounded_spec in Hb as [Hmx Hex].
  unfold SFsqrt, SFsqrt_core_binary.
  set (e' := Z.min _ (Z.div2 ex)).
  set (s := ex - 2 * e').
  set (m' := match s with Z.pos _ => Z.shiftl (Z.pos mx) s | 0 => Z.pos mx | Z.neg _ => 0 end).
  assert (e' <= Z.div2 ex) as He' by (subst e'; lia).
  assert (2 * Z.div2 ex <= ex) as Hdiv2
      by (pose proof (Z.div2_odd ex); destruct (Z.odd ex); cbn [Z.b2z] in *; lia).
  assert (0 <= s) as Hs by (subst s; lia).
  assert (0 <= m' < 2 ^ (53 + s)) as Hm'.
  { subst m'. destruct s as [|p|p] eqn:Es; [cbn; lia| |lia].
    rewrite Z.shiftl_mul_pow2 by lia. rewrite Z.pow_add_r by lia.
    assert (0 < 2 ^ Z.pos p) by (apply Z.pow_pos_nonneg; lia). nia. }
  pose proof (Z.sqrtrem_spec m' (proj1 Hm')) as Hsq.
  destruct (Z.sqrtrem m') as [q r]. destruct Hsq as [Hq Hr].
  apply Rounding.binary_round_aux_finite; [lia|lia|].
  set (K := 1023 - e'). assert (0 <= K) by (subst K; lia).
  assert (2 ^ (53 + s) <= 2 ^ K * 2 ^ K) as Hpow.
  { rewrite <- Z.pow_add_r by lia. apply Z.pow_le_mono_r; subst K s; lia. }
  assert (0 < 2 ^ K) by (apply Z.pow_pos_nonneg; lia).
  destruct (Z.lt_ge_cases q (2 ^ K)) as [Hlt|Hge]; [exact Hlt|nia].
Qed.

(** Converting a well-formed finite angle to radians gives a finite float. *)
Lemma radians_finite (s : bool) (mx : positive) (ex : Z) :
  bounded prec emax mx ex = true ->
  Float.isfinite (Math.radians (S754_finite s mx ex)) = true.
Proof.
  intros Hb. apply bounded_spec in Hb as [Hmx Hex].
  unfold Math.radians, Float.mul, Math.degToRad, SFmul.
  match goal with
  | |- context [binary_round_aux ?p ?em ?sg ?m ?e ?l] =>
      pose proof (Rounding.binary_round_aux_finite sg m e l) as H;
      destruct (binary_round_aux p em sg m e l)
  end; try reflexivity; exfalso; apply H; try lia.
  all: rewrite Pos2Z.inj_mul;
    replace (1023 - (ex + -58)) with (53 + (1028 - ex)) by lia;
    rewrite Z.pow_add_r by lia;
    assert (2 ^ 53 <= 2 ^ (1028 - ex)) by (apply Z.pow_le_mono_r; lia);
    assert (Z.pos 5030569068109113 < 2 ^ 53) by (vm_compute; reflexivity);
    nia.
Qed.

End FloatFacts.

(** ** What each calculator operation on floats returns *)

Module FloatOps.
Import Calculator.

Lemma check_float_bounds_cases (value : float) (operation : string) :
  check_float_bounds value operation =
  match value with
  | S754_infinity true =>
      VStr ("Error: Underflow occurred in " ++ operation ++ ". Result is too small.")
  | S754_infinity false =>
      VStr ("Error: Overflow occurred in " ++ operation ++ ". Result is too large.")
  | _ => VFloat value
  end.
Proof.
  unfold check_float_bounds.
  destruct value as [s|s| |s m e]; try destruct s; reflexivity.
Qed.

Lemma divide_result (numerator denominator : float) (w : world) :
  result (divide numerator denominator) w =
  if Float.eqb denominator (Float.of_int 0) then
    Return (VStr "Error: Cannot divide by zero.")
  else
    Return (check_float_bounds (SFdiv prec emax numerator denominator) "division").
Proof.
  unfold divide. print_step.
  destruct (Float.eqb denominator (Float.of_int 0)) eqn:E; [reflexivity|].
  unfold result, try_except, bind, Float.truediv.
  change Float.zero with (Float.of_int 0). rewrite E. reflexivity.
Qed.

(** [math.sqrt] returns the IEEE square root of every well-formed float
    that is not below zero (a NaN included). *)
Lemma math_sqrt_returns (x : float) (w : world) :
  Float.wf x = true -> Float.ltb x (Float.of_int 0) = false ->
  Math.sqrt x w = (Return (SFsqrt prec emax x), w) /\
  (Float.leb (Float.of_int 0) x = true ->
   Float.leb (Float.of_int 0) (SFsqrt prec emax x) = true).
Proof.
  intros Hwf Hlt. unfold Math.sqrt, Math.math_1.
  destruct x as [s|s| |s m e].
  - split; [reflexivity|destruct s; reflexivity].
  - destruct s; [discriminate Hlt|]. split; reflexivity.
  - split; [reflexivity|discriminate].
  - destruct s; [discriminate Hlt|]. cbn [Float.wf valid_binary] in Hwf.
    pose proof (FloatFacts.sqrt_finite m e Hwf) as H.
    destruct (SFsqrt prec emax (S754_finite false m e)) as [s'|s'| |s' m' e'];
      try contradiction; subst s'; split; reflexivity.
Qed.

(** Below zero [math.sqrt] raises: the guard of [square_root] is what
    keeps the exception away. *)
Lemma math_sqrt_raises (x : float) (w : world) :
  Float.ltb x (Float.of_int 0) = true ->
  result (Math.sqrt x) w = Raise ValueError.
Proof.
  destruct x as [s|s| |s m e]; try destruct s; try discriminate; reflexivity.
Qed.

Lemma square_root_result (number : float) (w : world) :
  Float.wf number = true ->
  result (square_root number) w =
  if Float.ltb number (Float.of_int 0) then
    Return (VStr "Error: Cannot calculate the square root of a negative number.")
  else Return (VFloat (SFsqrt prec emax number)).
Proof.
  intros Hwf. unfold square_root. print_step.
  destruct (Float.ltb number (Float.of_int 0)) eqn:E; [reflexivity|].
  unfold result, try_except, bind.
  rewrite (proj1 (math_sqrt_returns number _ Hwf E)). reflexivity.
Qed.

(** [math.radians] keeps the class of a well-formed angle: NaN, infinite
    or finite. *)
Lemma radians_class (x : float) :
  Float.wf x = true ->
  Float.isnan (Math.radians x) = Float.isnan x /\
  Float.isfinite (Math.radians x) = Float.isfinite x.
Proof.
  intros Hwf. destruct x as [s|s| |s m e]; try (split; reflexivity).
  rewrite (FloatFacts.radians_finite s m e Hwf).
  destruct (Math.radians (S754_finite s m e)) eqn:E;
    try (split; reflexivity);
    pose proof (FloatFacts.radians_finite s m e Hwf) as H;
    rewrite E in H; discriminate H.
Qed.

Lemma math_1_cases (func : float -> float) (x : float) (w : world) :
  Math.math_1 func false x w =
  if Math.domain_error func x then (Raise ValueError, w) else (Return (func x), w).
Proof.
  unfold Math.math_1, Math.domain_error.
  destruct (Float.isnan (func x) && negb (Float.isnan x)); [reflexivity|].
  destruct (Float.isinf (func x) && Float.isfinite x); reflexivity.
Qed.

Section Libm.

Variables c_sin c_cos c_tan : float -> float.

Lemma tangent_result (angle_degrees : float) (w : world) :
  result (tangent c_tan angle_degrees) w =
  if Math.domain_error c_tan (Math.radians angle_degrees) then
    Return (VStr "Error: Invalid input for tangent calculation.")
  else
    Return (check_float_bounds (c_tan (Math.radians angle_degrees))
              "tangent calculation").
Proof.
  unfold tangent. print_step.
  unfold result, try_except, bind, Math.tan. rewrite math_1_cases.
  destruct (Math.domain_error c_tan (Math.radians angle_degrees)); reflexivity.
Qed.

Lemma sine_result (angle_degrees : float) (w : world) :
  result (sine c_sin angle_degrees) w =
  if Math.domain_error c_sin (Math.radians angle_degrees) then Raise ValueError
  else
    Return (check_float_bounds (c_sin (Math.radians angle_degrees))
              "sine calculation").
Proof.
  unfold sine. print_step.
  unfold result, try_except, bind, Math.sin. rewrite math_1_cases.
  destruct (Math.domain_error c_sin (Math.radians angle_degrees)); reflexivity.
Qed.

Lemma cosine_result (angle_degrees : float) (w : world) :
  result (cosine c_cos angle_degrees) w =
  if Math.domain_error c_cos (Math.radians angle_degrees) then Raise ValueError
  else
    Return (check_float_bounds (c_cos (Math.radians angle_degrees))
              "cosine calculation").
Proof.
  unfold cosine. print_step.
  unfold result, try_except, bind, Math.cos. rewrite math_1_cases.
  destruct (Math.domain_error c_cos (Math.radians angle_degrees)); reflexivity.
Qed.

End Libm.

End FloatOps.

(** ** The claims about the float operations *)

(** C5.  [divide(x, d)] returns "Error: Cannot divide by zero." for every
    numerator as soon as the denominator compares equal to zero, [-0.0]
    included, where the division itself would have raised
    [ZeroDivisionError]; for every other denominator it returns the IEEE
    quotient passed through the float bounds check. *)
Theorem divide_guard_then_bounds (x d : float) (w : world) :
  (Float.eqb d (Float.of_int 0) = true ->
   result (Calculator.divide x d) w = Return (VStr "Error: Cannot divide by zero.") /\
   result (Float.truediv x d) w = Raise ZeroDivisionError) /\
  result (Calculator.divide x (S754_zero true)) w
  = Return (VStr "Error: Cannot divide by zero.") /\
  (Float.eqb d (Float.of_int 0) = false ->
   result (Calculator.divide x d) w
   = Return (Calculator.check_float_bounds (SFdiv prec emax x d) "division")).
Proof.
  rewrite !FloatOps.divide_result. split; [|split].
  - intros H. rewrite H. split; [reflexivity|].
    unfold result, Float.truediv. change Float.zero with (Float.of_int 0).
    rewrite H. reflexivity.
  - reflexivity.
  - intros H. rewrite H. reflexivity.
Qed.

(** C6.  The bounds-check helpers return their input unchanged when it is
    in range and otherwise exactly the overflow or the underflow message
    made of the operation's name; a float is out of range exactly when it
    is the positive or the negative infinity. *)
Theorem bounds_checks_contract (operation : string) :
  (forall value : Z,
     (Calculator.INT_MIN <= value <= Calculator.INT_MAX ->
      Calculator.check_integer_bounds value operation = VInt value) /\
     (value > Calculator.INT_MAX ->
      Calculator.check_integer_bounds value operation
      = VStr ("Error: Overflow occurred in " ++ operation ++ ". Result is too large.")) /\
     (value < Calculator.INT_MIN ->
      Calculator.check_integer_bounds value operation
      = VStr ("Error: Underflow occurred in " ++ operation ++ ". Result is too small."))) /\
  (forall value : float,
     (value = Float.inf ->
      Calculator.check_float_bounds value operation
      = VStr ("Error: Overflow occurred in " ++ operation ++ ". Result is too large.")) /\
     (value = Float.neg_inf ->
      Calculator.check_float_bounds value operation
      = VStr ("Error: Underflow occurred in " ++ operation ++ ". Result is too small.")) /\
     (value <> Float.inf -> value <> Float.neg_inf ->
      Calculator.check_float_bounds value operation = VFloat value) /\
     (Calculator.check_float_bounds value operation <> VFloat value <->
      Float.eqb value Float.inf = true \/ Float.eqb value Float.neg_inf = true)).
Proof.
  split; intros value.
  - split; [|split]; intros H.
    + apply IntBounds.in_range; exact H.
    + apply IntBounds.above; lia.
    + apply IntBounds.below; lia.
  - rewrite FloatOps.check_float_bounds_cases.
    unfold Float.inf, Float.neg_inf. rewrite !FloatFacts.eqb_infinity.
    split; [|split; [|split; [|split]]].
    + intros ->. reflexivity.
    + intros ->. reflexivity.
    + intros H1 H2. destruct value as [s|[]| |s m e]; congruence.
    + destruct value as [s|[]| |s m e]; intros H; try congruence; auto.
    + intros [-> | ->]; discriminate.
Qed.

(** C7.  For a float below zero [square_root] returns the negative-number
    message (where [math.sqrt] would have raised); for a float that is at
    least zero it returns the IEEE square root, which is at least zero;
    [square_root(16)] is [4.0] and [square_root(-1)] is the message. *)
Theorem square_root_guard_then_sqrt (x : float) (w : world) :
  Float.wf x = true ->
  (Float.ltb x (Float.of_int 0) = true ->
   result (Calculator.square_root x) w
   = Return (VStr "Error: Cannot calculate the square root of a negative number.") /\
   result (Math.sqrt x) w = Raise ValueError) /\
  (Float.leb (Float.of_int 0) x = true ->
   result (Calculator.square_root x) w = Return (VFloat (SFsqrt prec emax x)) /\
   Float.leb (Float.of_int 0) (SFsqrt prec emax x) = true) /\
  result (Calculator.square_root (Float.of_int 16)) w
  = Return (VFloat (Float.of_int 4)) /\
  result (Calculator.square_root (Float.of_int (-1))) w
  = Return (VStr "Error: Cannot calculate the square root of a negative number.").
Proof.
  intros Hwf. split; [|split; [|split]].
  - intros H. split.
    + rewrite FloatOps.square_root_result by exact Hwf. rewrite H. reflexivity.
    + apply FloatOps.math_sqrt_raises. exact H.
  - intros H.
    assert (Float.ltb x (Float.of_int 0) = false) as Hlt
        by (destruct x as [s|[]| |[] m e]; try discriminate H; reflexivity).
    split.
    + rewrite FloatOps.square_root_result by exact Hwf. rewrite Hlt. reflexivity.
    + apply (FloatOps.math_sqrt_returns x w Hwf Hlt). exact H.
  - reflexivity.
  - reflexivity.
Qed.

(** The theorem at a concrete input: [x = 16.0]. *)
Lemma square_root_guard_then_sqrt_at_16 :
  result (Calculator.square_root (Float.of_int 16)) world0
  = Return (VFloat (SFsqrt prec emax (Float.of_int 16))) /\
  Float.leb (Float.of_int 0) (SFsqrt prec emax (Float.of_int 16)) = true.
Proof.
  apply (square_root_guard_then_sqrt (Float.of_int 16) world0);
    vm_compute; reflexivity.
Defined.

(** C9.  The float bounds check hands a NaN back unchanged, so [divide]
    returns a NaN quotient as a number: infinity over infinity is one.  The
    same holds for [power] with a NaN base, whatever the C library. *)
Theorem nan_passes_the_float_check (operation : string) (w : world) :
  Calculator.check_float_bounds Float.nan operation = VFloat Float.nan /\
  result (Calculator.divide Float.inf Float.inf) w = Return (VFloat Float.nan) /\
  (forall x d : float,
     Float.eqb d (Float.of_int 0) = false ->
     Float.isnan (SFdiv prec emax x d) = true ->
     result (Calculator.divide x d) w = Return (VFloat Float.nan)) /\
  (forall c_pow : float -> float -> float,
     result (Calculator.power c_pow Float.nan (Float.of_int 1)) w
     = Return (VFloat Float.nan)).
Proof.
  split; [reflexivity|]. split; [reflexivity|]. split; [|reflexivity].
  intros x d Hd Hnan. rewrite FloatOps.divide_result, Hd.
  destruct (SFdiv prec emax x d); try discriminate Hnan. reflexivity.
Qed.

(** C4 (as amended).  [tangent] returns "Error: Invalid input for tangent
    calculation." exactly when [math.tan] raises [ValueError]: for an
    infinite angle of which the C library's [tan] is NaN, and for a finite
    angle at which the library's [tan] is not finite.  Whenever the
    library's [tan] of the converted angle is finite, [tangent] returns that
    number.  The message is none of the messages of the bounds check. *)
Theorem tangent_invalid_input_iff (c_tan : float -> float) (x : float) (w : world) :
  Float.wf x = true ->
  (result (Calculator.tangent c_tan x) w
   = Return (VStr "Error: Invalid input for tangent calculation.")
   <->
   Float.isinf x && Float.isnan (c_tan (Math.radians x))
   || Float.isfinite x && negb (Float.isfinite (c_tan (Math.radians x))) = true) /\
  (Float.isfinite (c_tan (Math.radians x)) = true ->
   result (Calculator.tangent c_tan x) w = Return (VFloat (c_tan (Math.radians x)))) /\
  (forall r : float,
     Calculator.check_float_bounds r "tangent calculation"
     <> VStr "Error: Invalid input for tangent calculation.").
Proof.
  intros Hwf. rewrite FloatOps.tangent_result. unfold Math.domain_error.
  destruct (FloatOps.radians_class x Hwf) as [Hn Hf]. rewrite Hn, Hf.
  rewrite FloatOps.check_float_bounds_cases.
  generalize (c_tan (Math.radians x)). intros r. clear Hn Hf Hwf.
  split; [|split].
  - destruct r as [s|[]| |s m e], x as [sx|sx| |sx mx ex]; cbn;
      split; intros H; try reflexivity; try discriminate H.
  - destruct r as [s|[]| |s m e], x as [sx|sx| |sx mx ex]; cbn;
      intros H; try reflexivity; try discriminate H.
  - intros r'. rewrite FloatOps.check_float_bounds_cases.
    destruct r' as [s|[]| |s m e]; discriminate.
Qed.

(** The theorem at 90 degrees with the reference library. *)
Lemma tangent_invalid_input_iff_at_90 :
  result (Calculator.tangent RefLibm.tan (Float.of_int 90)) world0
  = Return (VFloat (RefLibm.tan (Math.radians (Float.of_int 90)))).
Proof.
  apply (tangent_invalid_input_iff RefLibm.tan (Float.of_int 90) world0);
    vm_compute; reflexivity.
Defined.

(** C4, as stated, fails at 90 degrees: the angle is converted to
    1.5707963267948966, the tangent of which is the finite number
    1.633123935319537e16 (8165619676597685 * 2), and that number is
    returned. *)
Lemma tangent_of_90_degrees_is_a_number :
  result (Calculator.tangent RefLibm.tan (Float.of_int 90)) world0
  = Return (VFloat (S754_finite false 8165619676597685 1)) /\
  result (Calculator.tangent RefLibm.tan (Float.of_int 90)) world0
  <> Return (VStr "Error: Invalid input for tangent calculation.").
Proof.
  assert (result (Calculator.tangent RefLibm.tan (Float.of_int 90)) world0
          = Return (VFloat (S754_finite false 8165619676597685 1))) as H
      by (vm_compute; reflexivity).
  split; [exact H|]. rewrite H. discriminate.
Qed.

(** ** The claims about [modulo] *)

Lemma modulo_result (a b : Z) (w : world) :
  result (Calculator.modulo a b) w =
  if printable a && printable b then
    if b =? 0 then Return (VStr "Error: Cannot perform modulo with zero divisor.")
    else Return (VInt (a mod b))
  else Raise ValueError.
Proof.
  unfold Calculator.modulo. print_step.
  destruct (printable a), (printable b); try reflexivity. cbn [andb].
  destruct (b =? 0) eqn:E; [reflexivity|].
  unfold result, try_except, bind, Calculator.int_mod. rewrite E. reflexivity.
Qed.

Lemma printable_0 : printable 0 = true.
Proof. vm_compute. reflexivity. Qed.

(** The zero-divisor half of C3 holds for every dividend that converts to
    [str]. *)
Lemma modulo_zero_divisor (x : Z) (w : world) :
  printable x = true ->
  result (Calculator.modulo x 0) w
  = Return (VStr "Error: Cannot perform modulo with zero divisor.").
Proof. intros Hx. rewrite modulo_result, Hx, printable_0. reflexivity. Qed.

(** With a divisor in range the remainder is in range, whatever the
    dividend that converts to [str]. *)
Lemma modulo_in_range (a b : Z) (w : world) :
  printable a = true ->
  b <> 0 -> Calculator.INT_MIN <= b <= Calculator.INT_MAX ->
  exists r, result (Calculator.modulo a b) w = Return (VInt r) /\
            Calculator.INT_MIN <= r <= Calculator.INT_MAX.
Proof.
  intros Ha Hb Hr. rewrite modulo_result, Ha, (in_range_printable b Hr).
  cbn [andb].
  destruct (Z.eqb_spec b 0) as [|_]; [contradiction|].
  exists (a mod b). split; [reflexivity|].
  unfold Calculator.INT_MIN, Calculator.INT_MAX, Calculator.maxsize in *.
  destruct (Z.lt_ge_cases 0 b).
  - pose proof (Z.mod_pos_bound a b); lia.
  - pose proof (Z.mod_neg_bound a b); lia.
Qed.

(** C3 at the input [a = 2^64], [b = 2^65]: the operation returns the
    integer [2^64], which is above [INT_MAX], and no overflow message. *)
Theorem modulo_returns_out_of_range :
  result (Calculator.modulo (2 ^ 64) (2 ^ 65)) world0 = Return (VInt (2 ^ 64)) /\
  2 ^ 64 > Calculator.INT_MAX.
Proof. split; [vm_compute; reflexivity|reflexivity]. Qed.

(** C10.  For a divisor other than zero, the integer that [modulo(a, b)]
    returns is the remainder of the floored division: [a] minus a multiple
    of [b], with the sign of [b] ([0 <= r < b] for [b > 0], [b < r <= 0]
    for [b < 0]).  The call does return an integer when both arguments
    convert to [str] for the print; [modulo(-7, 3)] is [2]. *)
Theorem modulo_is_floored (a b : Z) (w : world) :
  b <> 0 ->
  (forall r,
     result (Calculator.modulo a b) w = Return (VInt r) ->
     exists q,
       a = b * q + r /\
       (0 < b -> 0 <= r < b) /\
       (b < 0 -> b < r <= 0)) /\
  (printable a = true -> printable b = true ->
   exists r, result (Calculator.modulo a b) w = Return (VInt r)) /\
  result (Calculator.modulo (-7) 3) w = Return (VInt 2).
Proof.
  intros Hb. rewrite modulo_result.
  destruct (Z.eqb_spec b 0) as [|_]; [contradiction|].
  split; [|split].
  - intros r Hr. destruct (printable a && printable b); [|discriminate Hr].
    injection Hr as <-. exists (a / b).
    split; [apply Z.div_mod; exact Hb|]. split.
    + intros H. apply Z.mod_pos_bound. exact H.
    + intros H. apply Z.mod_neg_bound. exact H.
  - intros -> ->. exists (a mod b). reflexivity.
  - vm_compute. reflexivity.
Qed.

(** The theorem at [a = -7], [b = -3]: the remainder is [-1]. *)
Lemma modulo_is_floored_at_minus_7_minus_3 :
  exists r q,
    result (Calculator.modulo (-7) (-3)) world0 = Return (VInt r) /\
    -7 = -3 * q + r /\ (0 < -3 -> 0 <= r < -3) /\ (-3 < 0 -> -3 < r <= 0).
Proof.
  destruct (modulo_is_floored (-7) (-3) world0 ltac:(lia)) as (Hall & Hex & _).
  destruct (Hex ltac:(vm_compute; reflexivity) ltac:(vm_compute; reflexivity))
    as [r Hr].
  destruct (Hall r Hr) as [q Hq].
  exists r, q. split; [exact Hr|exact Hq].
Defined.

(** ** Which operations return and which raise *)

Module RandomFacts.
Import Random.

Lemma skip_0 (w : world) : skip 0 w = w.
Proof. destruct w. reflexivity. Qed.

Lemma skip_skip (i j : nat) (w : world) : skip i (skip j w) = skip (i + j) w.
Proof. unfold skip. cbn [stdout rng_draws rng_pos now fuel]. f_equal. lia. Qed.

Lemma genrand_uint32_word (w : world) :
  exists r, genrand_uint32 w = (Return r, skip 1 w) /\ 0 <= r.
Proof.
  eexists. split; [reflexivity|].
  apply Z.mod_pos_bound. reflexivity.
Qed.

Lemma getrandbits_words_draw (words : nat) (k : Z) (w : world) :
  exists r, getrandbits_words words k w = (Return r, skip words w) /\ 0 <= r.
Proof.
  revert k w. induction words as [|words IH]; intros k w.
  - exists 0. rewrite skip_0. split; [reflexivity|lia].
  - destruct (genrand_uint32_word w) as (r & Hr & Hr0).
    destruct (IH (k - 32) (skip 1 w)) as (h & Hh & Hh0).
    cbn [getrandbits_words]. unfold bind at 1. rewrite Hr.
    unfold bind at 1. rewrite Hh. rewrite skip_skip.
    replace (words + 1)%nat with (S words) by lia.
    eexists. split; [reflexivity|].
    assert (0 <= Z.shiftl h 32) by (apply Z.shiftl_nonneg; exact Hh0).
    assert (0 <= Z.shiftr r (32 - k)) by (apply Z.shiftr_nonneg; exact Hr0).
    destruct (k <? 32); lia.
Qed.

(** A draw of [k] bits, [0 < k < 2^31], returns a number that is not
    negative and takes [words_of k] words. *)
Lemma getrandbits_draw (k : Z) (w : world) :
  0 < k <= 2 ^ 31 - 1 ->
  getrandbits k w = (Return (next_draw k w), skip (words_of k) w) /\
  0 <= next_draw k w.
Proof.
  intros Hk.
  assert (exists r, getrandbits k w = (Return r, skip (words_of k) w) /\ 0 <= r)
    as (r & Hr & Hr0).
  { unfold getrandbits, words_of.
    destruct (Z.gtb_spec k (2 ^ 31 - 1)); [lia|].
    destruct (Z.ltb_spec k 0); [lia|].
    destruct (Z.eqb_spec k 0); [lia|].
    destruct (k <=? 32).
    - destruct (genrand_uint32_word w) as (r & Hr & Hr0).
      unfold bind. rewrite Hr. eexists. split; [reflexivity|].
      apply Z.shiftr_nonneg. exact Hr0.
    - apply getrandbits_words_draw. }
  unfold next_draw. rewrite Hr. cbn [fst]. split; [reflexivity|exact Hr0].
Qed.

(** The loop of [_randbelow] ends with a number of [0 .. n-1] when one of
    the draws it is given is below [n]. *)
Lemma randbelow_loop_returns (n k : Z) (iterations : nat) (w : world) :
  0 < k <= 2 ^ 31 - 1 ->
  (exists j, (j < iterations)%nat /\ draw k w j < n) ->
  exists r w', randbelow_loop iterations n k w = (Return r, w') /\ 0 <= r < n.
Proof.
  intros Hk. revert w.
  induction iterations as [|iterations IH]; intros w (j & Hj & Hdraw); [lia|].
  destruct (getrandbits_draw k w Hk) as [Hget Hnonneg].
  cbn [randbelow_loop]. unfold bind. rewrite Hget.
  destruct (Z.geb_spec (next_draw k w) n) as [Hge|Hlt].
  - apply IH. destruct j as [|j].
    + unfold draw in Hdraw. cbn [Nat.mul] in Hdraw. rewrite skip_0 in Hdraw. lia.
    + exists j. split; [lia|].
      unfold draw in *. rewrite skip_skip.
      replace (j * words_of k + words_of k)%nat with (S j * words_of k)%nat
        by lia.
      exact Hdraw.
  - exists (next_draw k w), (skip (words_of k) w).
    split; [reflexivity|lia].
Qed.

Lemma bit_length_pos (n : Z) : 0 < n -> 0 < bit_length n.
Proof.
  intros Hn. unfold bit_length.
  destruct (Z.eqb_spec n 0); [lia|].
  pose proof (Z.log2_nonneg (Z.abs n)). lia.
Qed.

End RandomFacts.

(** [random_number] on an empty range, and on a range the generator finds
    a number for. *)
Lemma random_number_empty_range (min_val max_val : Z) (w : world) :
  max_val < min_val ->
  result (Demo.random_number min_val max_val) w = Raise ValueError.
Proof.
  intros H. unfold Demo.random_number, Random.randint, Random.randrange,
    result, bind.
  destruct (Z.gtb_spec (max_val + 1 - min_val) 0); [lia|reflexivity].
Qed.

Lemma random_number_in_range (min_val max_val : Z) (w : world) :
  min_val <= max_val ->
  Random.bit_length (max_val + 1 - min_val) <= 2 ^ 31 - 1 ->
  (exists j, (j < fuel w)%nat /\
             Random.draw (Random.bit_length (max_val + 1 - min_val)) w j
             < max_val + 1 - min_val) ->
  exists r, result (Demo.random_number min_val max_val) w = Return (VInt r) /\
            min_val <= r <= max_val.
Proof.
  intros Hle Hk Hdraw.
  unfold Demo.random_number, Random.randint, Random.randrange, result, bind.
  destruct (Z.gtb_spec (max_val + 1 - min_val) 0) as [Hw|Hw]; [|lia].
  unfold Random.randbelow at 1.
  destruct (RandomFacts.randbelow_loop_returns (max_val + 1 - min_val)
              (Random.bit_length (max_val + 1 - min_val)) (fuel w) w)
    as (r & w' & Hr & Hrange).
  - split; [apply RandomFacts.bit_length_pos; lia|exact Hk].
  - exact Hdraw.
  - rewrite Hr. exists (min_val + r). split; [reflexivity|lia].
Qed.

Section Libm.

Variable c_pow : float -> float -> float.

(** [power] lets the [ValueError] of [math.pow] through: it is raised
    exactly for finite arguments at which C's [pow] is NaN, or is infinite
    with a zero base. *)
Lemma power_raises_iff (base exponent : float) (w : world) :
  result (Calculator.power c_pow base exponent) w = Raise ValueError
  <->
  Float.isfinite base && Float.isfinite exponent
  && (Float.isnan (c_pow base exponent)
      || Float.isinf (c_pow base exponent) && Float.eqb base Float.zero) = true.
Proof.
  unfold Calculator.power. print_step.
  unfold result, try_except, bind, Math.pow.
  generalize (c_pow base exponent). intros r.
  destruct (Float.isfinite base), (Float.isfinite exponent);
    cbn [negb orb andb].
  - destruct r as [s|s| |s m e]; cbn [Float.isnan Float.isinf orb andb];
      try destruct (Float.eqb base Float.zero);
      cbv beta iota delta [ret raise handler exn_eqb fst];
      split; intros H; try discriminate H; reflexivity.
  - repeat match goal with
           | |- context [if ?c then _ else _] => destruct c
           end;
      cbv beta iota delta [ret raise handler exn_eqb fst];
      split; intros H; discriminate H.
  - repeat match goal with
           | |- context [if ?c then _ else _] => destruct c
           end;
      cbv beta iota delta [ret raise handler exn_eqb fst];
      split; intros H; discriminate H.
  - repeat match goal with
           | |- context [if ?c then _ else _] => destruct c
           end;
      cbv beta iota delta [ret raise handler exn_eqb fst];
      split; intros H; discriminate H.
Qed.

End Libm.

(** C2, as stated, fails: [random_number(5, 1)] raises [ValueError] (the
    range is empty for [randrange]) and returns nothing. *)
Lemma random_number_raises_on_an_empty_range :
  result (Demo.random_number 5 1) world0 = Raise ValueError /\
  ~ returns (Demo.random_number 5 1) world0.
Proof.
  assert (result (Demo.random_number 5 1) world0 = Raise ValueError) as H
      by reflexivity.
  split; [exact H|]. intros [v Hv]. rewrite H in Hv. discriminate Hv.
Qed.

(** C2 (as amended).  For every input of the declared types the calculator's
    [divide], [square_root] and [tangent] and the demo's [add], [multiply],
    [current_time], [calculate_circle_area] and [to_uppercase] return a value
    and raise nothing; so do the calculator's [add], [subtract], [multiply]
    and [modulo] when both arguments convert to [str] for the print (at most
    4300 digits).  [random_number] returns an integer of
    [min_val .. max_val] when [min_val <= max_val], the width of the range
    has fewer than [2^31] bits and one of the draws that the loop of the
    generator is given is below the width; it raises [ValueError] when
    [min_val > max_val].  ([power], [sine] and [cosine] are left out of this
    statement.) *)
Theorem operations_that_return
  (c_tan : float -> float) (str_upper : string -> string)
  (a b min_val max_val : Z) (x y : float) (text : string) (w : world) :
  (printable a = true -> printable b = true ->
   returns (Calculator.add a b) w /\
   returns (Calculator.subtract a b) w /\
   returns (Calculator.multiply a b) w /\
   returns (Calculator.modulo a b) w) /\
  returns (Calculator.divide x y) w /\
  (Float.wf x = true -> returns (Calculator.square_root x) w) /\
  returns (Calculator.tangent c_tan x) w /\
  returns (Demo.add a b) w /\
  returns (Demo.multiply a b) w /\
  returns Demo.current_time w /\
  returns (Demo.calculate_circle_area x) w /\
  returns (Demo.to_uppercase str_upper text) w /\
  (min_val <= max_val ->
   Random.bit_length (max_val + 1 - min_val) <= 2 ^ 31 - 1 ->
   (exists j, (j < fuel w)%nat /\
              Random.draw (Random.bit_length (max_val + 1 - min_val)) w j
              < max_val + 1 - min_val) ->
   exists r, result (Demo.random_number min_val max_val) w = Return (VInt r) /\
             min_val <= r <= max_val) /\
  (max_val < min_val ->
   result (Demo.random_number min_val max_val) w = Raise ValueError).
Proof.
  unfold returns.
  rewrite IntBounds.add_result, IntBounds.subtract_result,
    IntBounds.multiply_result, FloatOps.divide_result, modulo_result,
    FloatOps.tangent_result.
  split; [intros -> ->; cbn [andb]|split; [|split; [intros Hwf|]]];
    try rewrite (FloatOps.square_root_result x w Hwf);
    repeat match goal with
           | |- _ /\ _ => split
           | |- exists _, (if ?c then _ else _) = _ => destruct c
           | |- exists _, _ = Return _ => eexists; reflexivity
           end.
  - apply random_number_in_range.
  - apply random_number_empty_range.
Qed.

(** The theorem at concrete inputs: [modulo(7, -3)], [square_root(16.0)],
    [tangent(16.0)] and [random_number(1, 100)] return. *)
Lemma operations_that_return_at_16 :
  returns (Calculator.modulo 7 (-3)) world0 /\
  returns (Calculator.square_root (Float.of_int 16)) world0 /\
  returns (Calculator.tangent RefLibm.tan (Float.of_int 16)) world0 /\
  returns (Demo.random_number 1 100) world0.
Proof.
  pose proof (operations_that_return RefLibm.tan (fun s => s) 7 (-3) 1 100
                (Float.of_int 16) (Float.of_int 2) "abc" world0)
    as (Hint & _ & Hsqrt & Htan & _ & _ & _ & _ & _ & Hrand & _).
  destruct (Hint ltac:(vm_compute; reflexivity) ltac:(vm_compute; reflexivity))
    as (_ & _ & _ & Hmod).
  destruct (Hrand ltac:(lia) ltac:(vm_compute; discriminate)
              ltac:(exists 0%nat; split; [vm_compute; lia|vm_compute; reflexivity]))
    as (r & Hr & _).
  split; [exact Hmod|]. split; [exact (Hsqrt ltac:(vm_compute; reflexivity))|].
  split; [exact Htan|]. exists (VInt r). exact Hr.
Defined.

(** ** Determinism *)

Section TwoRuns.

Variables c_sin c_cos c_tan : float -> float.
Variable c_pow : float -> float -> float.
Variable str_upper : string -> string.

Lemma power_two_runs (base exponent : float) (w1 w2 : world) :
  result (Calculator.power c_pow base exponent) w1
  = result (Calculator.power c_pow base exponent) w2.
Proof.
  unfold Calculator.power. print_step.
  unfold result, try_except, bind, Math.pow.
  repeat match goal with
         | |- context [if ?c then _ else _] => destruct c
         end;
    reflexivity.
Qed.

Lemma square_root_two_runs (number : float) (w1 w2 : world) :
  result (Calculator.square_root number) w1
  = result (Calculator.square_root number) w2.
Proof.
  unfold Calculator.square_root. print_step.
  destruct (Float.ltb number (Float.of_int 0)); [reflexivity|].
  unfold result, try_except, bind, Math.sqrt.
  rewrite !FloatOps.math_1_cases.
  destruct (Math.domain_error _ number); reflexivity.
Qed.

(** C8.  Every operation but [random_number] and [current_time] is
    deterministic: two calls with the same arguments, made in any two
    worlds (other printed lines, another generator state, another time),
    end the same way. *)
Theorem operations_are_deterministic
  (a b : Z) (x y : float) (text : string) (w1 w2 : world) :
  result (Calculator.add a b) w1 = result (Calculator.add a b) w2 /\
  result (Calculator.subtract a b) w1 = result (Calculator.subtract a b) w2 /\
  result (Calculator.multiply a b) w1 = result (Calculator.multiply a b) w2 /\
  result (Calculator.divide x y) w1 = result (Calculator.divide x y) w2 /\
  result (Calculator.power c_pow x y) w1 = result (Calculator.power c_pow x y) w2 /\
  result (Calculator.square_root x) w1 = result (Calculator.square_root x) w2 /\
  result (Calculator.modulo a b) w1 = result (Calculator.modulo a b) w2 /\
  result (Calculator.sine c_sin x) w1 = result (Calculator.sine c_sin x) w2 /\
  result (Calculator.cosine c_cos x) w1 = result (Calculator.cosine c_cos x) w2 /\
  result (Calculator.tangent c_tan x) w1 = result (Calculator.tangent c_tan x) w2 /\
  result (Demo.add a b) w1 = result (Demo.add a b) w2 /\
  result (Demo.multiply a b) w1 = result (Demo.multiply a b) w2 /\
  result (Demo.calculate_circle_area x) w1
  = result (Demo.calculate_circle_area x) w2 /\
  result (Demo.to_uppercase str_upper text) w1
  = result (Demo.to_uppercase str_upper text) w2.
Proof.
  rewrite !IntBounds.add_result, !IntBounds.subtract_result,
    !IntBounds.multiply_result, !FloatOps.divide_result, !modulo_result,
    !FloatOps.sine_result, !FloatOps.cosine_result, !FloatOps.tangent_result.
  repeat split; try reflexivity.
  - apply power_two_runs.
  - apply square_root_two_runs.
Qed.

End TwoRuns.

(** The two operations that C8 leaves out do depend on the world. *)
Lemma random_number_and_current_time_vary :
  result (Demo.random_number 1 100) world0
  <> result (Demo.random_number 1 100) world1 /\
  result Demo.current_time world0 <> result Demo.current_time world1 /\
  result Demo.current_time world0 = Return (VStr "2024-02-29 12:00:00").
Proof. repeat split; vm_compute; discriminate. Qed.

(** ** Further properties of the operations *)

(** [sine] and [cosine] handle [OverflowError] only: at an infinite angle,
    where C's [sin] and [cos] are NaN, the [ValueError] of [math.sin] and
    [math.cos] leaves the operation. *)
Lemma sine_and_cosine_raise_at_infinity
  (c_sin c_cos : float -> float) (s : bool) (w : world) :
  Float.isnan (c_sin (S754_infinity s)) = true ->
  Float.isnan (c_cos (S754_infinity s)) = true ->
  result (Calculator.sine c_sin (S754_infinity s)) w = Raise ValueError /\
  result (Calculator.cosine c_cos (S754_infinity s)) w = Raise ValueError.
Proof.
  intros Hs Hc. rewrite FloatOps.sine_result, FloatOps.cosine_result.
  assert (Math.radians (S754_infinity s) = S754_infinity s) as ->
      by (destruct s; reflexivity).
  unfold Math.domain_error. rewrite Hs, Hc. split; reflexivity.
Qed.

Lemma sine_and_cosine_raise_at_infinity_ref :
  result (Calculator.sine RefLibm.sin Float.inf) world0 = Raise ValueError /\
  result (Calculator.cosine RefLibm.cos Float.inf) world0 = Raise ValueError.
Proof.
  apply (sine_and_cosine_raise_at_infinity RefLibm.sin RefLibm.cos false world0);
    reflexivity.
Defined.

(** The lemma [modulo_in_range] at [a = 2^70], [b = -3]. *)
Lemma modulo_in_range_at_a_large_dividend :
  exists r, result (Calculator.modulo (2 ^ 70) (-3)) world0 = Return (VInt r) /\
            Calculator.INT_MIN <= r <= Calculator.INT_MAX.
Proof.
  apply (modulo_in_range (2 ^ 70) (-3) world0);
    [vm_compute; reflexivity|lia|].
  unfold Calculator.INT_MIN, Calculator.INT_MAX, Calculator.maxsize. lia.
Defined.

(** ** The integer operations of the two tool sets *)

Module IntOps.
Import Calculator.

(** The three outcomes of the integer bounds check. *)
Lemma check_integer_bounds_cases (value : Z) (operation : string) :
  (INT_MIN <= value <= INT_MAX /\
   check_integer_bounds value operation = VInt value) \/
  (INT_MAX < value /\
   check_integer_bounds value operation
   = VStr ("Error: Overflow occurred in " ++ operation ++ ". Result is too large.")) \/
  (value < INT_MIN /\
   check_integer_bounds value operation
   = VStr ("Error: Underflow occurred in " ++ operation ++ ". Result is too small.")).
Proof.
  destruct (Z.lt_ge_cases value INT_MIN) as [Hlo|Hlo].
  - right. right. split; [exact Hlo|apply IntBounds.below; exact Hlo].
  - destruct (Z.lt_ge_cases INT_MAX value) as [Hhi|Hhi].
    + right. left. split; [exact Hhi|apply IntBounds.above; exact Hhi].
    + left. split; [lia|apply IntBounds.in_range; lia].
Qed.

Lemma check_integer_bounds_int (value r : Z) (operation : string) :
  check_integer_bounds value operation = VInt r ->
  r = value /\ INT_MIN <= value <= INT_MAX.
Proof.
  destruct (check_integer_bounds_cases value operation)
    as [[H ->] | [[H ->] | [H ->]]]; intros E; try discriminate E.
  injection E as <-. split; [reflexivity|exact H].
Qed.

(** What a returned integer says about a call of [add], [subtract] or
    [multiply]: the arguments were printed, and the exact result is in
    range. *)
Lemma returned_int (a b value r : Z) (operation : string) :
  (if printable a && printable b
   then Return (check_integer_bounds value operation)
   else Raise ValueError) = Return (VInt r) ->
  printable a = true /\ printable b = true /\
  r = value /\ INT_MIN <= value <= INT_MAX.
Proof.
  destruct (printable a), (printable b); cbn [andb]; intros H;
    try discriminate H.
  injection H as H. apply check_integer_bounds_int in H.
  split; [reflexivity|]. split; [reflexivity|]. exact H.
Qed.

End IntOps.

(** An integer that [add], [subtract] or [multiply] of the calculator
    returns is the exact result and lies in [INT_MIN .. INT_MAX]: a result
    out of range is never handed out as a number. *)
Lemma calculator_integers_are_in_range (a b r : Z) (w : world) :
  (result (Calculator.add a b) w = Return (VInt r) ->
   r = a + b /\ Calculator.INT_MIN <= r <= Calculator.INT_MAX) /\
  (result (Calculator.subtract a b) w = Return (VInt r) ->
   r = a - b /\ Calculator.INT_MIN <= r <= Calculator.INT_MAX) /\
  (result (Calculator.multiply a b) w = Return (VInt r) ->
   r = a * b /\ Calculator.INT_MIN <= r <= Calculator.INT_MAX).
Proof.
  rewrite IntBounds.add_result, IntBounds.subtract_result,
    IntBounds.multiply_result.
  split; [|split]; intros H;
    apply IntOps.returned_int in H as (_ & _ & -> & H); split;
    try reflexivity; exact H.
Qed.

(** The two tool sets each have an [add] and a [multiply].  The demo's
    neither print nor check bounds and always return the exact result; the
    calculator's agree with them exactly when both arguments convert to
    [str] for the print and the exact result lies in [INT_MIN .. INT_MAX]. *)
Lemma calculator_and_demo_agree_iff_in_range (a b : Z) (w : world) :
  (result (Calculator.add a b) w = result (Demo.add a b) w
   <-> printable a = true /\ printable b = true /\
       Calculator.INT_MIN <= a + b <= Calculator.INT_MAX) /\
  (result (Calculator.multiply a b) w = result (Demo.multiply a b) w
   <-> printable a = true /\ printable b = true /\
       Calculator.INT_MIN <= a * b <= Calculator.INT_MAX) /\
  result (Demo.add a b) w = Return (VInt (a + b)) /\
  result (Demo.multiply a b) w = Return (VInt (a * b)).
Proof.
  rewrite IntBounds.add_result, IntBounds.multiply_result.
  change (result (Demo.add a b) w) with (Return (VInt (a + b))).
  change (result (Demo.multiply a b) w) with (Return (VInt (a * b))).
  split; [|split; [|split; reflexivity]]; split.
  - intros H. apply IntOps.returned_int in H as (Ha & Hb & _ & H). auto.
  - intros (-> & -> & H). cbn [andb].
    rewrite IntBounds.in_range by exact H. reflexivity.
  - intros H. apply IntOps.returned_int in H as (Ha & Hb & _ & H). auto.
  - intros (-> & -> & H). cbn [andb].
    rewrite IntBounds.in_range by exact H. reflexivity.
Qed.

(** Adding [b] and subtracting it again gives [a] back: when [a] is in
    range and [add(a, b)] returned a sum, [subtract] of the sum and [b]
    returns [a]. *)
Lemma add_then_subtract (a b s : Z) (w w' : world) :
  Calculator.INT_MIN <= a <= Calculator.INT_MAX ->
  result (Calculator.add a b) w = Return (VInt s) ->
  result (Calculator.subtract s b) w' = Return (VInt a).
Proof.
  intros Ha Hs. rewrite IntBounds.add_result in Hs.
  apply IntOps.returned_int in Hs as (_ & Hb & -> & Hs).
  rewrite IntBounds.subtract_result, (in_range_printable _ Hs), Hb.
  cbn [andb]. replace (a + b - b) with a by lia.
  rewrite IntBounds.in_range by exact Ha. reflexivity.
Qed.

Lemma add_then_subtract_at_max :
  result (Calculator.subtract Calculator.INT_MAX 1) world1
  = Return (VInt (Calculator.INT_MAX - 1)).
Proof.
  apply (add_then_subtract (Calculator.INT_MAX - 1) 1 Calculator.INT_MAX
           world0 world1).
  - unfold Calculator.INT_MIN, Calculator.INT_MAX, Calculator.maxsize. lia.
  - reflexivity.
Defined.

(** The range is not symmetric.  When [subtract(a, b)] returns [r], the
    swapped [subtract(b, a)] returns [-r], except for [r = INT_MIN], where
    it returns the overflow message. *)
Lemma subtract_swapped (a b r : Z) (w w' : world) :
  result (Calculator.subtract a b) w = Return (VInt r) ->
  result (Calculator.subtract b a) w' =
  if r =? Calculator.INT_MIN then
    Return (VStr "Error: Overflow occurred in subtraction. Result is too large.")
  else Return (VInt (- r)).
Proof.
  intros H. rewrite IntBounds.subtract_result in H.
  apply IntOps.returned_int in H as (Ha & Hb & -> & H).
  rewrite IntBounds.subtract_result, Ha, Hb. cbn [andb].
  destruct (Z.eqb_spec (a - b) Calculator.INT_MIN) as [E|E].
  - rewrite IntBounds.above; [reflexivity|].
    unfold Calculator.INT_MIN, Calculator.INT_MAX in *. lia.
  - rewrite IntBounds.in_range; [f_equal; f_equal; lia|].
    unfold Calculator.INT_MIN, Calculator.INT_MAX in *. lia.
Qed.

Lemma subtract_swapped_at_min :
  result (Calculator.subtract 0 Calculator.INT_MIN) world0
  = Return (VStr "Error: Overflow occurred in subtraction. Result is too large.").
Proof.
  apply (subtract_swapped Calculator.INT_MIN 0 Calculator.INT_MIN world0 world0).
  reflexivity.
Defined.

(** ** The float operations: what is never returned *)

Module FloatEdges.
Import Calculator.

(** A float that passes the bounds check is that float, and no infinity. *)
Lemma check_float_bounds_float (value r : float) (operation : string) :
  check_float_bounds value operation = VFloat r ->
  r = value /\ Float.isinf value = false.
Proof.
  rewrite FloatOps.check_float_bounds_cases.
  destruct value as [s|[]| |s m e]; intros H; try discriminate H;
    injection H as <-; split; reflexivity.
Qed.

(** The messages of the bounds check all end in "Result is too large." or
    "Result is too small.": none is a given shorter message. *)
Lemma check_float_bounds_message (value : float) (operation msg : string) :
  check_float_bounds value operation = VStr msg ->
  msg = "Error: Overflow occurred in " ++ operation ++ ". Result is too large."
  \/ msg = "Error: Underflow occurred in " ++ operation ++ ". Result is too small.".
Proof.
  rewrite FloatOps.check_float_bounds_cases.
  destruct value as [s|[]| |s m e]; intros H; try discriminate H;
    injection H as <-; auto.
Qed.

(** [square_root] for every float, well-formed or not. *)
Lemma square_root_cases (number : float) (w : world) :
  result (square_root number) w =
  if Float.ltb number (Float.of_int 0) then
    Return (VStr "Error: Cannot calculate the square root of a negative number.")
  else if Math.domain_error (SFsqrt prec emax) number then Raise ValueError
  else Return (VFloat (SFsqrt prec emax number)).
Proof.
  unfold square_root. print_step.
  destruct (Float.ltb number (Float.of_int 0)); [reflexivity|].
  unfold result, try_except, bind, Math.sqrt. rewrite FloatOps.math_1_cases.
  destruct (Math.domain_error _ number); reflexivity.
Qed.

End FloatEdges.

(** Called with arguments of the declared types -- binary64 floats for
    [divide], [square_root], [sine], [cosine] and [tangent], integers for
    [modulo] -- these operations never enter their [except OverflowError]
    clause: none of them ever returns the message of its clause, whatever
    the values and the C library.  (An overflow is reported by the bounds
    check, with the longer message.) *)
Lemma overflow_clauses_are_never_entered
  (c_sin c_cos c_tan : float -> float) (a b : Z) (x y : float) (w : world) :
  result (Calculator.divide x y) w
  <> Return (VStr "Error: Overflow occurred in division.") /\
  result (Calculator.square_root x) w
  <> Return (VStr "Error: Overflow occurred in square root calculation.") /\
  result (Calculator.modulo a b) w
  <> Return (VStr "Error: Overflow occurred in modulo operation.") /\
  result (Calculator.sine c_sin x) w
  <> Return (VStr "Error: Overflow occurred in sine calculation.") /\
  result (Calculator.cosine c_cos x) w
  <> Return (VStr "Error: Overflow occurred in cosine calculation.") /\
  result (Calculator.tangent c_tan x) w
  <> Return (VStr "Error: Overflow occurred in tangent calculation.").
Proof.
  rewrite FloatOps.divide_result, FloatEdges.square_root_cases, modulo_result,
    FloatOps.sine_result, FloatOps.cosine_result, FloatOps.tangent_result.
  repeat match goal with
         | |- _ /\ _ => split
         | |- (if ?c then _ else _) <> _ => destruct c
         end;
    intros H; try discriminate H; injection H as H;
    apply FloatEdges.check_float_bounds_message in H as [H|H];
    discriminate H.
Qed.

(** A float that [divide], [power], [sine], [cosine] or [tangent] returns
    is never an infinity: the bounds check turns both infinities into
    messages.  ([square_root] and [calculate_circle_area] are not checked.) *)
Lemma returned_floats_are_not_infinite
  (c_sin c_cos c_tan : float -> float) (c_pow : float -> float -> float)
  (x y r : float) (w : world) :
  (result (Calculator.divide x y) w = Return (VFloat r) ->
   Float.isinf r = false) /\
  (result (Calculator.power c_pow x y) w = Return (VFloat r) ->
   Float.isinf r = false) /\
  (result (Calculator.sine c_sin x) w = Return (VFloat r) ->
   Float.isinf r = false) /\
  (result (Calculator.cosine c_cos x) w = Return (VFloat r) ->
   Float.isinf r = false) /\
  (result (Calculator.tangent c_tan x) w = Return (VFloat r) ->
   Float.isinf r = false).
Proof.
  rewrite FloatOps.divide_result, FloatOps.sine_result, FloatOps.cosine_result,
    FloatOps.tangent_result.
  assert (forall v op, Return (Calculator.check_float_bounds v op)
                       = Return (VFloat r) -> Float.isinf r = false) as Hchk.
  { intros v op H. injection H as H.
    apply FloatEdges.check_float_bounds_float in H as [-> H]. exact H. }
  split; [|split; [|split; [|split]]].
  - destruct (Float.eqb y (Float.of_int 0)); [discriminate|apply Hchk].
  - unfold Calculator.power. print_step.
    unfold result, try_except, bind, Math.pow.
    repeat match goal with
           | |- context [if ?c then _ else _] => destruct c
           end;
      cbv beta iota delta [ret raise handler exn_eqb fst];
      first [discriminate | apply Hchk].
  - destruct (Math.domain_error c_sin _); [discriminate|apply Hchk].
  - destruct (Math.domain_error c_cos _); [discriminate|apply Hchk].
  - destruct (Math.domain_error c_tan _); [discriminate|apply Hchk].
Qed.

(** [square_root] does not pass its result through the bounds check.  For
    a well-formed float that is not below zero it returns the IEEE root,
    which is a NaN exactly for a NaN and an infinity exactly for an
    infinity: [square_root(inf)] is [inf], returned as a number. *)
Lemma square_root_keeps_nan_and_infinity (x : float) (w : world) :
  Float.wf x = true ->
  Float.ltb x (Float.of_int 0) = false ->
  result (Calculator.square_root x) w = Return (VFloat (SFsqrt prec emax x)) /\
  Float.isnan (SFsqrt prec emax x) = Float.isnan x /\
  Float.isinf (SFsqrt prec emax x) = Float.isinf x.
Proof.
  intros Hwf Hlt. split.
  - rewrite FloatOps.square_root_result by exact Hwf. rewrite Hlt. reflexivity.
  - destruct x as [s|[]| |[] m e]; try discriminate Hlt; try (split; reflexivity).
    pose proof (FloatFacts.sqrt_finite m e Hwf) as H.
    destruct (SFsqrt prec emax (S754_finite false m e)); try contradiction;
      split; reflexivity.
Qed.

Lemma square_root_keeps_nan_and_infinity_at_inf :
  result (Calculator.square_root Float.inf) world0 = Return (VFloat Float.inf) /\
  Float.isnan (SFsqrt prec emax Float.inf) = false /\
  Float.isinf (SFsqrt prec emax Float.inf) = true.
Proof.
  apply (square_root_keeps_nan_and_infinity Float.inf world0); reflexivity.
Defined.

(** The bounds check of [divide] looks at the quotient only.  An infinite
    numerator over a finite divisor other than zero is reported as an
    overflow (equal signs) or an underflow (opposite signs) "in division";
    a finite numerator over an infinite divisor returns a zero of the sign
    of the quotient. *)
Lemma divide_with_an_infinite_operand
  (sx sd : bool) (m : positive) (e : Z) (w : world) :
  result (Calculator.divide (S754_infinity sx) (S754_finite sd m e)) w
  = Return (VStr (if xorb sx sd
                  then "Error: Underflow occurred in division. Result is too small."
                  else "Error: Overflow occurred in division. Result is too large.")) /\
  result (Calculator.divide (S754_finite sx m e) (S754_infinity sd)) w
  = Return (VFloat (S754_zero (xorb sx sd))) /\
  result (Calculator.divide (S754_zero sx) (S754_infinity sd)) w
  = Return (VFloat (S754_zero (xorb sx sd))).
Proof.
  rewrite !FloatOps.divide_result.
  destruct sx, sd; repeat split; reflexivity.
Qed.

(** ** [calculate_circle_area] *)

Module MulFacts.

(** Rounding does not look at the sign: it only copies it. *)
Lemma binary_round_aux_opp (s : bool) (m e : Z) (l : location) :
  binary_round_aux prec emax (negb s) m e l
  = SFopp (binary_round_aux prec emax s m e l).
Proof.
  unfold binary_round_aux.
  destruct (shr_fexp prec emax m e l) as [mrs1 e1].
  destruct (shr_fexp prec emax _ e1 loc_Exact) as [mrs2 e2].
  destruct (shr_m mrs2) as [|p|p]; [reflexivity| |reflexivity].
  destruct (e2 <=? emax - prec); reflexivity.
Qed.

(** A non-negative mantissa rounds to a zero, a finite float or an
    infinity of the sign asked for, never to a NaN. *)
Lemma binary_round_aux_sign (s : bool) (m e : Z) (l : location) :
  0 <= m ->
  match binary_round_aux prec emax s m e l with
  | S754_zero s' | S754_infinity s' | S754_finite s' _ _ => s' = s
  | S754_nan => False
  end.
Proof.
  intros Hm. unfold binary_round_aux.
  pose proof (Rounding.shr_fexp_spec m e l Hm) as H1.
  destruct (shr_fexp prec emax m e l) as [mrs1 e1].
  assert (0 <= shr_m mrs1) as Hm1.
  { destruct H1 as [[_ ->] | (_ & He1 & ->)]; [exact Hm|].
    apply Z.div_pos; [exact Hm|apply Z.pow_pos_nonneg; lia]. }
  pose proof (Rounding.round_nearest_even_bounds (shr_m mrs1)
                (loc_of_shr_record mrs1)) as Hr.
  set (m2 := round_nearest_even (shr_m mrs1) (loc_of_shr_record mrs1)) in *.
  assert (0 <= m2) as Hm2' by lia.
  pose proof (Rounding.shr_fexp_spec m2 e1 loc_Exact Hm2') as H2.
  destruct (shr_fexp prec emax m2 e1 loc_Exact) as [mrs2 e2].
  assert (0 <= shr_m mrs2) as Hm2.
  { destruct H2 as [[_ ->] | (_ & He2 & ->)]; [lia|].
    apply Z.div_pos; [lia|apply Z.pow_pos_nonneg; lia]. }
  destruct (shr_m mrs2) as [|p|p]; [reflexivity| |lia].
  destruct (e2 <=? emax - prec); reflexivity.
Qed.

Lemma mul_opp_r (x y : float) :
  Float.mul x (SFopp y) = SFopp (Float.mul x y).
Proof.
  unfold Float.mul, SFmul.
  destruct x as [sx|sx| |sx mx ex], y as [sy|sy| |sy my ey]; cbn [SFopp];
    try reflexivity;
    destruct sx, sy; try reflexivity;
    first [ apply (binary_round_aux_opp false)
          | apply (binary_round_aux_opp true) ].
Qed.

Lemma mul_opp_l (x y : float) :
  Float.mul (SFopp x) y = SFopp (Float.mul x y).
Proof.
  unfold Float.mul, SFmul.
  destruct x as [sx|sx| |sx mx ex], y as [sy|sy| |sy my ey]; cbn [SFopp];
    try reflexivity;
    destruct sx, sy; try reflexivity;
    first [ apply (binary_round_aux_opp false)
          | apply (binary_round_aux_opp true) ].
Qed.

Lemma opp_opp (x : float) : SFopp (SFopp x) = x.
Proof. destruct x as [[]|[]| |[] m e]; reflexivity. Qed.

(** The product of a positive finite float and [x] is a NaN only for a
    NaN and has the sign of [x]. *)
Lemma mul_positive_sign (mp : positive) (ep : Z) (x : float) :
  match x, Float.mul (S754_finite false mp ep) x with
  | S754_nan, S754_nan => True
  | (S754_zero s | S754_infinity s | S754_finite s _ _),
    (S754_zero s' | S754_infinity s' | S754_finite s' _ _) => s' = s
  | _, _ => False
  end.
Proof.
  unfold Float.mul, SFmul. destruct x as [s|s| |s m e]; try reflexivity.
  pose proof (binary_round_aux_sign (xorb false s) (Z.pos (mp * m)) (ep + e)
                loc_Exact ltac:(lia)) as H.
  destruct (binary_round_aux prec emax (xorb false s) (Z.pos (mp * m))
              (ep + e) loc_Exact); try contradiction; subst; reflexivity.
Qed.

(** The product of a float and a finite float of its sign is not
    negative. *)
Lemma mul_same_sign (s : bool) (x : float) (my : positive) (ey : Z) :
  match x with
  | S754_zero s' | S754_infinity s' | S754_finite s' _ _ => s' = s
  | S754_nan => False
  end ->
  Float.leb (Float.of_int 0) (Float.mul x (S754_finite s my ey)) = true.
Proof.
  unfold Float.mul, SFmul.
  destruct x as [sx|sx| |sx mx ex]; intros Hx; try contradiction; subst sx;
    try (destruct s; reflexivity).
  pose proof (binary_round_aux_sign (xorb s s) (Z.pos (mx * my)) (ex + ey)
                loc_Exact ltac:(lia)) as H.
  destruct (binary_round_aux prec emax (xorb s s) (Z.pos (mx * my))
              (ex + ey) loc_Exact) as [s'|s'| |s' m' e'];
    try contradiction; subst s'; destruct s; reflexivity.
Qed.

End MulFacts.

(** [calculate_circle_area] depends on the size of the radius only, not on
    its sign; for a radius that is not a NaN it returns a float that is not
    negative (a NaN radius gives a NaN); and, with no bounds check in the
    demo tools, an infinite radius gives the infinity itself. *)
Lemma circle_area_is_even_and_not_negative (radius : float) (w : world) :
  result (Demo.calculate_circle_area (SFopp radius)) w
  = result (Demo.calculate_circle_area radius) w /\
  (exists area,
     result (Demo.calculate_circle_area radius) w = Return (VFloat area) /\
     Float.isnan area = Float.isnan radius /\
     (Float.isnan radius = false -> Float.leb (Float.of_int 0) area = true) /\
     (Float.isinf radius = true -> area = Float.inf)).
Proof.
  unfold Demo.calculate_circle_area, result, ret. cbn [fst]. split.
  - rewrite !MulFacts.mul_opp_r, MulFacts.mul_opp_l, MulFacts.opp_opp.
    reflexivity.
  - eexists. split; [reflexivity|].
    destruct radius as [s|s| |s m e].
    + destruct s; repeat split; try reflexivity; discriminate.
    + destruct s; repeat split; try reflexivity; discriminate.
    + repeat split; try reflexivity; discriminate.
    + pose proof (MulFacts.mul_positive_sign 7074237752028440 (-51)
                    (S754_finite s m e)) as Hp.
      cbv beta iota in Hp.
      change (Float.mul Math.pi (S754_finite s m e)) with
        (Float.mul (S754_finite false 7074237752028440 (-51)) (S754_finite s m e)).
      assert (Float.leb (Float.of_int 0)
                (Float.mul (Float.mul (S754_finite false 7074237752028440 (-51))
                              (S754_finite s m e)) (S754_finite s m e)) = true)
        as Hle.
      { apply MulFacts.mul_same_sign.
        destruct (Float.mul (S754_finite false 7074237752028440 (-51))
                    (S754_finite s m e)); try contradiction; exact Hp. }
      split; [|split; [intros _; exact Hle|discriminate]].
      destruct (Float.mul (Float.mul _ _) _); try reflexivity; discriminate Hle.
Qed.

(** ** [power] on finite arguments *)

(** For finite arguments [power] returns C's [pow] when that is finite.
    When C's [pow] overflowed, to either infinity, [math.pow] raises
    [OverflowError] and the clause of [power] reports an overflow: the
    underflow message is never given for finite arguments, not even for a
    result of minus infinity.  A NaN, and an infinity from a zero base, are
    the [ValueError] that [power] does not handle. *)
Lemma power_of_finite_arguments
  (c_pow : float -> float -> float) (base exponent : float) (w : world) :
  Float.isfinite base = true -> Float.isfinite exponent = true ->
  result (Calculator.power c_pow base exponent) w =
  match c_pow base exponent with
  | S754_nan => Raise ValueError
  | S754_infinity _ =>
      if Float.eqb base Float.zero then Raise ValueError
      else Return (VStr "Error: Overflow occurred in exponentiation. Result is too large.")
  | r => Return (VFloat r)
  end.
Proof.
  intros Hb He. unfold Calculator.power. print_step.
  unfold result, try_except, bind, Math.pow. rewrite Hb, He.
  cbn [negb orb]. cbv zeta.
  destruct (c_pow base exponent) as [s|s| |s m e];
    cbn [Float.isnan Float.isinf];
    try destruct (Float.eqb base Float.zero); reflexivity.
Qed.

(** The lemma at [power(-10.0, 309.0)]: the result, minus infinity, is
    reported as an overflow. *)
Lemma power_of_finite_arguments_at_minus_10_309 :
  result (Calculator.power RefLibm.pow (Float.of_int (-10)) (Float.of_int 309))
    world0
  = Return (VStr "Error: Overflow occurred in exponentiation. Result is too large.").
Proof.
  rewrite (power_of_finite_arguments RefLibm.pow (Float.of_int (-10))
             (Float.of_int 309) world0); vm_compute; reflexivity.
Defined.

(** ** Dividing a float by itself *)

(** [divide(x, x)] is exactly [1.0] for every finite [x] other than zero,
    a NaN (returned as a number) for an infinite [x], and the
    divide-by-zero message for a zero. *)
Lemma divide_by_itself (x : float) (w : world) :
  result (Calculator.divide x x) w =
  match x with
  | S754_finite _ _ _ => Return (VFloat (Float.of_int 1))
  | S754_zero _ => Return (VStr "Error: Cannot divide by zero.")
  | S754_infinity _ | S754_nan => Return (VFloat Float.nan)
  end.
Proof.
  rewrite FloatOps.divide_result.
  destruct x as [s|s| |s m e]; try reflexivity; try (destruct s; reflexivity).
  assert (Float.eqb (S754_finite s m e) (Float.of_int 0) = false) as ->
      by (destruct s; reflexivity).
  unfold SFdiv, SFdiv_core_binary.
  replace (Z.min (fexp prec emax (Zdigits2 (Z.pos m) + e - (Zdigits2 (Z.pos m) + e)))
             (e - e)) with (-53)
    by (rewrite !Z.sub_diag; reflexivity).
  replace (e - e - -53) with 53 by lia.
  assert (Z.div_eucl (Z.shiftl (Z.pos m) 53) (Z.pos m) = (2 ^ 53, 0)) as ->.
  { pose proof (Z.div_eucl_eq (Z.shiftl (Z.pos m) 53) (Z.pos m) ltac:(lia)) as H.
    pose proof (Z.mod_pos_bound (Z.shiftl (Z.pos m) 53) (Z.pos m) ltac:(lia)) as Hm.
    unfold Z.modulo in Hm.
    destruct (Z.div_eucl (Z.shiftl (Z.pos m) 53) (Z.pos m)) as [q r].
    rewrite Z.shiftl_mul_pow2 in H by lia.
    assert (q = 2 ^ 53) by nia. subst q. f_equal. lia. }
  assert (new_location (Z.pos m) 0 = loc_Exact) as ->
      by (unfold new_location; destruct (Z.even (Z.pos m)); reflexivity).
  destruct s; reflexivity.
Qed.

(** ** [modulo] composed with itself *)

(** [modulo] is periodic in its first argument with period [b], as long as
    the shifted dividend still converts to [str] for the print; and applying
    it to its own result changes nothing: [modulo(r, b)] is [r] for
    [r = modulo(a, b)], since [r] is shorter than [b].  Both hold for a zero
    divisor too, where the message is returned each time. *)
Lemma modulo_is_periodic_and_idempotent (a b k r : Z) (w w' : world) :
  printable a = true -> printable (a + k * b) = true ->
  result (Calculator.modulo (a + k * b) b) w = result (Calculator.modulo a b) w' /\
  (result (Calculator.modulo a b) w = Return (VInt r) ->
   result (Calculator.modulo r b) w' = Return (VInt r)).
Proof.
  intros Ha Hk. rewrite !modulo_result, Ha, Hk. cbn [andb].
  destruct (printable b) eqn:Hb.
  - destruct (Z.eqb_spec b 0) as [Hz|Hz].
    + split; [reflexivity|discriminate].
    + split.
      * rewrite Z.mod_add by exact Hz. reflexivity.
      * intros H. injection H as <-.
        assert (printable (a mod b) = true) as ->.
        { unfold printable in *. apply Z.ltb_lt. apply Z.ltb_lt in Hb.
          destruct (Z.lt_ge_cases 0 b).
          - pose proof (Z.mod_pos_bound a b). lia.
          - pose proof (Z.mod_neg_bound a b). lia. }
        cbn [andb]. rewrite Z.mod_mod by exact Hz. reflexivity.
  - split; [reflexivity|discriminate].
Qed.

Lemma modulo_is_periodic_and_idempotent_at_17 :
  result (Calculator.modulo (17 + 4 * -5) (-5)) world0
  = result (Calculator.modulo 17 (-5)) world1 /\
  (result (Calculator.modulo 17 (-5)) world0 = Return (VInt (-3)) ->
   result (Calculator.modulo (-3) (-5)) world1 = Return (VInt (-3))).
Proof.
  apply (modulo_is_periodic_and_idempotent 17 (-5) 4 (-3) world0 world1);
    vm_compute; reflexivity.
Defined.

(** ** Integers too long to print *)

(** The calculator's [add], [subtract], [multiply] and [modulo] build the
    line they print before anything else, outside the [try].  When an
    argument has more than 4300 decimal digits its conversion to [str]
    raises [ValueError]: the call raises, prints nothing and leaves the
    world as it was, whatever the other argument -- even for a sum that is
    in range, and even for [modulo] with a zero divisor, whose guard is
    never reached.  The demo's [add] and [multiply] print nothing and
    return for the same arguments. *)
Lemma unprintable_arguments_raise (a b : Z) (w : world) :
  printable a && printable b = false ->
  (result (Calculator.add a b) w = Raise ValueError /\
   world_after (Calculator.add a b) w = w) /\
  (result (Calculator.subtract a b) w = Raise ValueError /\
   world_after (Calculator.subtract a b) w = w) /\
  (result (Calculator.multiply a b) w = Raise ValueError /\
   world_after (Calculator.multiply a b) w = w) /\
  (result (Calculator.modulo a b) w = Raise ValueError /\
   world_after (Calculator.modulo a b) w = w) /\
  result (Demo.add a b) w = Return (VInt (a + b)) /\
  result (Demo.multiply a b) w = Return (VInt (a * b)).
Proof.
  intros H.
  rewrite IntBounds.add_result, IntBounds.subtract_result,
    IntBounds.multiply_result, modulo_result, H.
  assert (forall (l1 l2 : string) (k : unit -> py val),
            snd (bind (fstring [Lit l1; Arg (VInt a); Lit l2; Arg (VInt b)])
                   (fun s => bind (print s) k) w) = w) as Hw'.
  { intros l1 l2 k. unfold bind at 1. rewrite !fstring_cases.
    cbn [formattable forallb andb].
    replace (printable a && (printable b && true)) with false
      by (destruct (printable a), (printable b); try reflexivity;
          discriminate H).
    reflexivity. }
  unfold world_after, Calculator.add, Calculator.subtract,
    Calculator.multiply, Calculator.modulo.
  rewrite !Hw'. repeat split.
Qed.

(** The limit is exactly 4300 digits: [10^4300 - 1] is the largest
    integer that converts to [str]. *)
Lemma printable_at_the_limit :
  printable (10 ^ 4300) = false /\
  printable (- 10 ^ 4300) = false /\
  printable (10 ^ 4300 - 1) = true.
Proof.
  assert (0 < 10 ^ 4300) as H by (apply Z.pow_pos_nonneg; lia).
  unfold printable, str_digits_bound, int_max_str_digits.
  revert H. generalize (10 ^ 4300). intros p Hp.
  split; [apply Z.ltb_ge; lia|].
  split; [apply Z.ltb_ge; lia|apply Z.ltb_lt; lia].
Qed.

(** The lemma at [a = 10^4300], [b = -10^4300] (the sum is 0), and
    [modulo(10^4300, 0)]. *)
Lemma unprintable_arguments_raise_at_10_4300 :
  result (Calculator.add (10 ^ 4300) (- 10 ^ 4300)) world0 = Raise ValueError /\
  result (Calculator.modulo (10 ^ 4300) 0) world0 = Raise ValueError /\
  printable (10 ^ 4300 - 1) = true.
Proof.
  destruct printable_at_the_limit as (Ha & _ & Hc).
  assert (forall b, printable (10 ^ 4300) && printable b = false) as H
    by (intros b; rewrite Ha; reflexivity).
  pose proof (unprintable_arguments_raise (10 ^ 4300) (- 10 ^ 4300) world0
                (H _)) as ([Hadd _] & _).
  pose proof (unprintable_arguments_raise (10 ^ 4300) 0 world0
                (H _)) as (_ & _ & _ & [Hmod _] & _).
  split; [exact Hadd|]. split; [exact Hmod|exact Hc].
Defined.

(** ** [sine] and [cosine] where the C library gives a finite value *)

(** Whenever the C library's [sin] (or [cos]) of the angle converted to
    radians is finite, [sine] (or [cosine]) returns exactly that float:
    the conversion [angle * (pi / 180)] is the only arithmetic of the
    operation, and its rounding is in the result.  So [sine(30.0)] is
    0.49999999999999994 and not 0.5, and [cosine(90.0)] is
    6.123233995736766e-17 and not 0. *)
Lemma sine_and_cosine_of_finite_values
  (c_sin c_cos : float -> float) (x : float) (w : world) :
  Float.isfinite (c_sin (Math.radians x)) = true ->
  Float.isfinite (c_cos (Math.radians x)) = true ->
  result (Calculator.sine c_sin x) w = Return (VFloat (c_sin (Math.radians x))) /\
  result (Calculator.cosine c_cos x) w = Return (VFloat (c_cos (Math.radians x))).
Proof.
  intros Hs Hc. rewrite FloatOps.sine_result, FloatOps.cosine_result.
  unfold Math.domain_error. rewrite !FloatOps.check_float_bounds_cases.
  destruct (c_sin (Math.radians x)) as [s|s| |s m e]; try discriminate Hs;
    destruct (c_cos (Math.radians x)) as [s'|s'| |s' m' e']; try discriminate Hc;
    split; reflexivity.
Qed.

Lemma sine_of_30_and_cosine_of_90 :
  result (Calculator.sine RefLibm.sin (Float.of_int 30)) world0
  = Return (VFloat (S754_finite false 9007199254740991 (-54))) /\
  result (Calculator.cosine RefLibm.cos (Float.of_int 90)) world0
  = Return (VFloat (S754_finite false 4967757600021511 (-106))).
Proof.
  pose proof (sine_and_cosine_of_finite_values RefLibm.sin RefLibm.cos
                (Float.of_int 30) world0 ltac:(vm_compute; reflexivity)
                ltac:(vm_compute; reflexivity)) as [H30 _].
  pose proof (sine_and_cosine_of_finite_values RefLibm.sin RefLibm.cos
                (Float.of_int 90) world0 ltac:(vm_compute; reflexivity)
                ltac:(vm_compute; reflexivity)) as [_ H90].
  split.
  - rewrite H30. vm_compute. reflexivity.
  - rewrite H90. vm_compute. reflexivity.
Defined.

(** ** Sums of sums *)

(** Adding three numbers gives the same answer in either order of the two
    additions, as long as both first sums were returned as numbers: the
    last addition may overflow, and then overflows the same way in both
    orders. *)
Lemma add_is_associative_on_returned_sums (a b c s t : Z) (w1 w2 w3 w4 : world) :
  result (Calculator.add a b) w1 = Return (VInt s) ->
  result (Calculator.add b c) w2 = Return (VInt t) ->
  result (Calculator.add s c) w3 = result (Calculator.add a t) w4.
Proof.
  rewrite !IntBounds.add_result. intros Hs Ht.
  apply IntOps.returned_int in Hs as (Ha & _ & -> & Hs).
  apply IntOps.returned_int in Ht as (_ & Hc & -> & Ht).
  rewrite (in_range_printable _ Hs), (in_range_printable _ Ht), Ha, Hc.
  rewrite Z.add_assoc. reflexivity.
Qed.

Lemma add_is_associative_on_returned_sums_at_max :
  result (Calculator.add (Calculator.INT_MAX - 1) 2) world0
  = result (Calculator.add Calculator.INT_MAX 1) world1.
Proof.
  apply (add_is_associative_on_returned_sums Calculator.INT_MAX (-1) 2
           (Calculator.INT_MAX - 1) 1 world0 world0 world0 world1);
    reflexivity.
Defined.
